(** * tile_screen: the selection state machine and the tile geometry

    A shallow embedding of [main.go] of gonutz/tile_screen: the window
    procedure passed to [newWindow] (one handler per message), the helpers
    [min], [max] and [overlap], and the start-up sequence of [main].

    Conventions of the embedding.
    - Go's [int32], [int16], [uint16], [uint32] and [int] are [Z] with the
      wrap-around of every conversion and arithmetic operation written out
      ([int] and [uintptr] are 64 bits wide, as on windows/amd64).
    - A conversion that widens ([int32] to [int], [byte] to [int32]) keeps
      the value and is left out; one that narrows or reinterprets is written
      with its wrap-around.
    - A handler returns an [Outcome]: its result, a run-time panic (division
      by zero, index out of range, an explicit [panic]) or [Blocked] when the
      polling loop never sees another foreground window.  Either ends the run;
      what was done before it is not recorded.
    - What a handler does to the outside world is the list of [Action]s it
      returns, in program order; what it reads from the outside world comes
      from a [World]. *)

From Stdlib Require Import ZArith List Bool Lia.
From Stdlib Require Strings.Byte.
Import Strings.Byte.
Import ListNotations.
Local Open Scope Z_scope.

(** ** Machine integers *)

Module MachInt.

Definition wrap_signed (bits z : Z) : Z :=
  (z + 2 ^ (bits - 1)) mod 2 ^ bits - 2 ^ (bits - 1).

Definition wrap_unsigned (bits z : Z) : Z := z mod 2 ^ bits.

Definition to_int16 : Z -> Z := wrap_signed 16.
Definition to_int32 : Z -> Z := wrap_signed 32.
Definition to_int : Z -> Z := wrap_signed 64.
Definition to_uint16 : Z -> Z := wrap_unsigned 16.
Definition to_uint32 : Z -> Z := wrap_unsigned 32.
Definition to_uintptr : Z -> Z := wrap_unsigned 64.

Definition int32_range (z : Z) : Prop := - 2 ^ 31 <= z < 2 ^ 31.
Definition int_range (z : Z) : Prop := - 2 ^ 63 <= z < 2 ^ 63.

(** [byte(v)]: the low eight bits. *)
Definition to_byte (z : Z) : byte :=
  match Byte.of_N (Z.to_N (z mod 256)) with
  | Some b => b
  | None => x00
  end.

Definition byte_val (b : byte) : Z := Z.of_N (Byte.to_N b).

End MachInt.
Import MachInt.

(** ** Outcomes of fallible code *)

Inductive Outcome (A : Type) : Type :=
| Ret (a : A)
| Panic
| Blocked.
Arguments Ret {A} a.
Arguments Panic {A}.
Arguments Blocked {A}.

Definition bind {A B : Type} (c : Outcome A) (k : A -> Outcome B) : Outcome B :=
  match c with
  | Ret a => k a
  | Panic => Panic
  | Blocked => Blocked
  end.

Notation "x <- c ;; k" := (bind c (fun x => k))
  (at level 61, c at next level, right associativity).

(** Go's [a / b] and [a % b] on [int]: truncation toward zero, a panic on a
    zero divisor. *)
Definition go_div (a b : Z) : Outcome Z :=
  if b =? 0 then Panic else Ret (to_int (a ÷ b)).

Definition go_mod (a b : Z) : Outcome Z :=
  if b =? 0 then Panic else Ret (to_int (Z.rem a b)).

(** ** Data of the w32 package *)

Definition HWND := Z.
Definition HMONITOR := Z.

Record RECT : Type := mkRECT {
  Left : Z;
  Top : Z;
  Right : Z;
  Bottom : Z
}.

(** Modelled from the spec: the methods [Width] and [Height] of [w32.RECT]
    (package w32 is not part of the sources); the spec's [workArea.width] and
    [workArea.height] of a rectangle (left, top, right, bottom), as [int32]. *)
Definition Width (r : RECT) : Z := to_int32 (Right r - Left r).
Definition Height (r : RECT) : Z := to_int32 (Bottom r - Top r).

Record MONITORINFO : Type := mkMONITORINFO {
  RcMonitor : RECT;
  RcWork : RECT
}.

Definition RECT_eqb (a b : RECT) : bool :=
  (Left a =? Left b) && (Top a =? Top b) &&
  (Right a =? Right b) && (Bottom a =? Bottom b).

Definition RECT_wf (r : RECT) : Prop :=
  int32_range (Left r) /\ int32_range (Top r) /\
  int32_range (Right r) /\ int32_range (Bottom r).

(** Modelled from the spec: [w32.LOWORD] and [w32.HIWORD] (package w32 is not
    part of the sources); the two 16-bit halves of the message parameter that
    carry the pointer position P. *)
Definition LOWORD (v : Z) : Z := to_uint16 v.
Definition HIWORD (v : Z) : Z := to_uint16 (Z.shiftr v 16).

(** ** Helpers of main.go *)

Definition min (a b : Z) : Z := if a <? b then a else b.
Definition max (a b : Z) : Z := if a >? b then a else b.

Definition overlap (a b : RECT) : bool :=
  (Right b >=? Left a) && (Left b <? Right a) &&
  (Bottom b >=? Top a) && (Top b <? Bottom a).

(** ** The geometry of the pointer-up handler (main.go, lines 73 to 94) *)

Definition resolve (info : MONITORINFO) (tiles : Z) (selection : RECT)
  : Outcome (Z * Z * Z * Z) :=
  tileW <- go_div (Width (RcWork info)) tiles ;;
  tileH <- go_div (Height (RcWork info)) tiles ;;
  qx <- go_div (Left selection) tileW ;;
  let x := to_int (qx * tileW) in
  qy <- go_div (Top selection) tileH ;;
  let y := to_int (qy * tileH) in
  qr <- go_div (Right selection) tileW ;;
  let right := to_int (to_int (qr * tileW) + tileW) in
  let right := if right >? Width (RcWork info) then Width (RcWork info) else right in
  qb <- go_div (Bottom selection) tileH ;;
  let bottom := to_int (to_int (qb * tileH) + tileH) in
  let bottom := if bottom >? Height (RcWork info) then Height (RcWork info) else bottom in
  cr <- go_div (Right selection) tileW ;;
  right <- (if cr =? to_int (tiles - 1)
            then r <- go_mod (Width (RcWork info)) tileW ;; Ret (to_int (right + r))
            else Ret right) ;;
  cb <- go_div (Bottom selection) tileH ;;
  bottom <- (if cb =? to_int (tiles - 1)
             then r <- go_mod (Height (RcWork info)) tileH ;; Ret (to_int (bottom + r))
             else Ret bottom) ;;
  Ret (to_int (Left (RcWork info) + x), to_int (Top (RcWork info) + y),
       to_int (right - x), to_int (bottom - y)).

(** ** The overlay painting (main.go, lines 102 to 134) *)

Inductive Color : Type := COLOR_HIGHLIGHT | COLOR_BTNFACE | COLOR_DESKTOP.

Definition backColor : Color := COLOR_HIGHLIGHT.
Definition foreColor : Color := COLOR_BTNFACE.
Definition inColor : Color := COLOR_DESKTOP.

Inductive ShowCmd : Type := SW_MINIMIZE | SW_RESTORE.

(** What a handler asks of the windowing system and of the file system, in
    program order.  [Sleep] is not recorded. *)
Inductive Action : Type :=
| InvalidateRect (window : HWND)
| ShowWindow (window : HWND) (cmd : ShowCmd)
| CloseWindow (window : HWND)
| SetWindowPos (window : HWND) (x y cx cy : Z)
| WriteFile (data : list byte)
| BeginPaint (window : HWND)
| FillRect (r : RECT) (color : Color)
| EndPaint (window : HWND)
| PostQuitMessage (code : Z)
| DefWindowProc (window : HWND) (msg w l : Z).

(** The rectangle [r] of the loop body, for the cell ([x], [y]) and the tile
    size [w] by [h]. *)
Definition cellRect (w h x y : Z) : RECT :=
  {| Left := to_int32 (to_int32 (to_int (x * w)) + 2);
     Top := to_int32 (to_int32 (to_int (y * h)) + 2);
     Right := to_int32 (to_int32 (to_int (to_int (x + 1) * w)) - 4);
     Bottom := to_int32 (to_int32 (to_int (to_int (y + 1) * h)) - 4) |}.

Definition paintCell (w h : Z) (selection : RECT) (x y : Z) : Action :=
  let r := cellRect w h x y in
  FillRect r (if overlap r selection then inColor else foreColor).

(** The values of the loop variable of [for i := 0; i < n; i++]. *)
Definition loopRange (n : Z) : list Z := map Z.of_nat (seq 0 (Z.to_nat n)).

Definition paintCells (w h tiles : Z) (selection : RECT) : list Action :=
  flat_map (fun x => map (fun y => paintCell w h selection x y) (loopRange tiles))
           (loopRange tiles).

Definition paint (window : HWND) (info : MONITORINFO) (tiles : Z) (selection : RECT)
  : Outcome (list Action) :=
  let background :=
    FillRect {| Left := 0; Top := 0;
                Right := Width (RcWork info); Bottom := Height (RcWork info) |}
             backColor in
  w <- go_div (Width (RcWork info)) tiles ;;
  h <- go_div (Height (RcWork info)) tiles ;;
  Ret ([BeginPaint window; background] ++ paintCells w h tiles selection
       ++ [EndPaint window]).

(** ** The window procedure (main.go, lines 27 to 150) *)

Inductive Msg : Type :=
| WM_MOUSEMOVE
| WM_LBUTTONDOWN
| WM_LBUTTONUP
| WM_PAINT
| WM_KEYDOWN
| WM_DESTROY
| WM_OTHER (code : Z).

(** The variables of [main] that the window procedure closes over. *)
Record State : Type := mkState {
  info : MONITORINFO;
  selecting : bool;
  selection : RECT;
  tiles : Z
}.

(** What the program reads from outside: the successive answers of
    [GetForegroundWindow], the desktop window, the monitor of a window (0 for
    none), the information of a monitor (none when the query fails), the
    content of the settings file (none when reading fails) and the window
    that [newWindow] returns (none when it fails). *)
Record World : Type := mkWorld {
  foreground : list HWND;
  GetDesktopWindow : HWND;
  MonitorFromWindow : HWND -> HMONITOR;
  GetMonitorInfo : HMONITOR -> option MONITORINFO;
  ReadFile : option (list byte);
  newWindow : option HWND
}.

(** What a handler leaves behind: the variables, the answers of
    [GetForegroundWindow] not yet consumed, and what it did. *)
Record Step : Type := mkStep {
  st : State;
  polls : list HWND;
  acts : list Action
}.

(** [w := window; for w == window { Sleep; w = GetForegroundWindow() }]:
    the first answer that is not [window] and the answers left, or nothing
    when every answer is [window]. *)
Fixpoint awaitForeground (window : HWND) (fg : list HWND) : option (HWND * list HWND) :=
  match fg with
  | [] => None
  | w :: rest => if w =? window then awaitForeground window rest else Some (w, rest)
  end.

Definition pointerX (l : Z) : Z := to_int16 (LOWORD (to_uint32 l)).
Definition pointerY (l : Z) : Z := to_int16 (HIWORD (to_uint32 l)).

Definition VK_ESCAPE : Z := 27.

Definition onMouseMove (window : HWND) (s : State) (fg : list HWND) (l : Z) : Step :=
  if selecting s then
    let x := pointerX l in
    let y := pointerY l in
    let old := selection s in
    let new := {| Left := min (Left old) x;
                  Top := min (Top old) y;
                  Right := max (Right old) x;
                  Bottom := max (Bottom old) y |} in
    mkStep (mkState (info s) (selecting s) new (tiles s)) fg
           (if negb (RECT_eqb new old) then [InvalidateRect window] else [])
  else mkStep s fg [].

Definition onLButtonDown (s : State) (fg : list HWND) (l : Z) : Step :=
  let x := pointerX l in
  let y := pointerY l in
  mkStep (mkState (info s) true {| Left := x; Top := y; Right := x; Bottom := y |} (tiles s))
         fg [].

Definition onLButtonUp (world : World) (window : HWND) (s : State) (fg : list HWND)
  : Outcome Step :=
  if selecting s then
    match awaitForeground window fg with
    | None => Blocked
    | Some (w, fg') =>
      if (w =? 0) || (w =? GetDesktopWindow world) then
        Ret (mkStep s fg' [ShowWindow window SW_MINIMIZE; CloseWindow window])
      else
        let m := MonitorFromWindow world w in
        if m =? 0 then
          Ret (mkStep s fg' [ShowWindow window SW_MINIMIZE; CloseWindow window])
        else
          g <- resolve (info s) (tiles s) (selection s) ;;
          let '(x, y, cx, cy) := g in
          Ret (mkStep s fg'
                 [ShowWindow window SW_MINIMIZE;
                  ShowWindow w SW_RESTORE;
                  SetWindowPos w x y cx cy;
                  WriteFile [to_byte (tiles s)];
                  CloseWindow window])
    end
  else Ret (mkStep s fg []).

Definition onKeyDown (window : HWND) (s : State) (fg : list HWND) (w : Z) : Step :=
  if negb (selecting s) && (50 <=? w) && (w <=? 57) then
    mkStep (mkState (info s) (selecting s) (selection s) (to_int (to_uintptr (w - 48))))
           fg [InvalidateRect window]
  else if w =? VK_ESCAPE then mkStep s fg [CloseWindow window]
  else mkStep s fg [].

Definition wndProc (world : World) (window : HWND) (s : State) (fg : list HWND)
  (msg : Msg) (w l : Z) : Outcome Step :=
  match msg with
  | WM_MOUSEMOVE => Ret (onMouseMove window s fg l)
  | WM_LBUTTONDOWN => Ret (onLButtonDown s fg l)
  | WM_LBUTTONUP => onLButtonUp world window s fg
  | WM_PAINT => a <- paint window (info s) (tiles s) (selection s) ;; Ret (mkStep s fg a)
  | WM_KEYDOWN => Ret (onKeyDown window s fg w)
  | WM_DESTROY => Ret (mkStep s fg [PostQuitMessage 0])
  | WM_OTHER code => Ret (mkStep s fg [DefWindowProc window code w l])
  end.

(** ** Start-up (main.go, lines 19 to 23 and 152 to 182) and the message loop *)

Definition zeroRECT : RECT := mkRECT 0 0 0 0.

Definition readTiles (read : option (list byte)) : Outcome Z :=
  match read with
  | None => Ret 2
  | Some data =>
    match data with
    | [] => Panic
    | b :: _ => Ret (min 9 (max 2 (byte_val b)))
    end
  end.

Definition startup (world : World) : Outcome (HWND * Step) :=
  match newWindow world with
  | None => Panic
  | Some window =>
    n <- readTiles (ReadFile world) ;;
    match awaitForeground window (foreground world) with
    | None => Blocked
    | Some (w, fg') =>
      let monitor := MonitorFromWindow world w in
      if monitor =? 0 then Panic
      else
        match GetMonitorInfo world monitor with
        | None => Panic
        | Some mi =>
          Ret (window,
               mkStep (mkState mi false zeroRECT n) fg'
                 [ShowWindow window SW_MINIMIZE;
                  ShowWindow window SW_RESTORE;
                  SetWindowPos window (Left (RcWork mi)) (Top (RcWork mi))
                               (Width (RcWork mi)) (Height (RcWork mi))])
        end
    end
  end.

(** The messages that [RunMainLoop] dispatches, one handler at a time. *)
Fixpoint dispatch (world : World) (window : HWND) (s : State) (fg : list HWND)
  (msgs : list (Msg * Z * Z)) : Outcome Step :=
  match msgs with
  | [] => Ret (mkStep s fg [])
  | (msg, w, l) :: rest =>
    r1 <- wndProc world window s fg msg w l ;;
    r2 <- dispatch world window (st r1) (polls r1) rest ;;
    Ret (mkStep (st r2) (polls r2) (acts r1 ++ acts r2))
  end.

Definition program (world : World) (msgs : list (Msg * Z * Z)) : Outcome Step :=
  boot <- startup world ;;
  let '(window, r0) := boot in
  r <- dispatch world window (st r0) (polls r0) msgs ;;
  Ret (mkStep (st r) (polls r) (acts r0 ++ acts r)).

From Stdlib Require Strings.String.

(** * Package win (vendor/github.com/gonutz/win/win_windows.go)

    The message translation of [MessageHandler.Callback] and the decoders of
    message parameters.  A handler of the [MessageHandler] is a function
    value, nil or not: it is an [option], and what running it does is the
    list of effects (of an arbitrary type [E]) that it returns.  Calling a
    nil function is a run-time panic. *)

Module Win.

Definition mouseX (l : Z) : Z := to_int16 (Z.land l 65535).

Definition mouseY (l : Z) : Z := to_int16 (Z.land (Z.shiftr l 16) 65535).

(** The methods of [KeyOptions]. *)
Definition RepeatCount (o : Z) : Z := to_int (Z.land o 65535).

Definition ScanCode (o : Z) : Z := to_int (Z.land (Z.shiftr o 16) 255).

Definition IsExtended (o : Z) : bool := negb (Z.land o (Z.shiftl 1 24) =? 0).

Definition WasDown (o : Z) : bool := negb (Z.land o (Z.shiftl 1 30) =? 0).

(** [utf16.Decode] of the standard library on a single code unit: the unit
    itself, or U+FFFD for half of a surrogate pair. *)
Definition decodeUnit (u : Z) : Z :=
  if (u <? 55296) || (57344 <=? u) then u else 65533.

(** The message codes that [Callback] tells apart. *)
Inductive MessageID : Type :=
| WM_TIMER
| WM_KEYDOWN
| WM_KEYUP
| WM_CHAR
| WM_MOUSEMOVE
| WM_SIZE
| WM_MOVE
| WM_ACTIVATE
| WM_LBUTTONDOWN
| WM_RBUTTONDOWN
| WM_MBUTTONDOWN
| WM_LBUTTONUP
| WM_RBUTTONUP
| WM_MBUTTONUP
| WM_MOUSEWHEEL
| WM_DESTROY
| WM_QUIT
| WM_OTHER (code : Z).

Section Handler.

Variable E : Type.
(** The type [float32] and the function [float32(v) / 120.0] of a 16-bit
    signed [v]. *)
Variable float32 : Type.
Variable wheelForward : Z -> float32.

Record MessageHandler : Type := mkMessageHandler {
  OnKeyDown : option (Z -> Z -> list E);
  OnKeyUp : option (Z -> Z -> list E);
  OnMouseMove : option (Z -> Z -> Z -> list E);
  OnMouseWheel : option (float32 -> Z -> Z -> Z -> list E);
  OnLeftMouseDown : option (Z -> Z -> Z -> list E);
  OnRightMouseDown : option (Z -> Z -> Z -> list E);
  OnMiddleMouseDown : option (Z -> Z -> Z -> list E);
  OnLeftMouseUp : option (Z -> Z -> Z -> list E);
  OnRightMouseUp : option (Z -> Z -> Z -> list E);
  OnMiddleMouseUp : option (Z -> Z -> Z -> list E);
  OnChar : option (Z -> list E);
  OnSize : option (Z -> Z -> list E);
  OnMove : option (Z -> Z -> list E);
  OnActivate : option (list E);
  OnDeactivate : option (list E);
  OnTimer : option (Z -> list E)
}.

(** What [Callback] did with a message: it ran handlers, or it posted the
    quit message, or it left the message to [DefWindowProc]. *)
Inductive Reply : Type :=
| Handled (done : list E)
| Quit (code : Z)
| Default (window : HWND) (msg : MessageID) (w l : Z).

Definition Callback (m : MessageHandler) (window : HWND) (msg : MessageID) (w l : Z)
  : Outcome Reply :=
  let low := to_int (Z.land (to_uintptr l) 65535) in
  let high := to_int (Z.land (Z.shiftr (to_uintptr l) 16) 65535) in
  let default := Ret (Default window msg w l) in
  let mouse (h : option (Z -> Z -> Z -> list E)) :=
    match h with
    | Some f => Ret (Handled (f (mouseX l) (mouseY l) w))
    | None => default
    end in
  match msg with
  | WM_TIMER =>
    match OnTimer m with
    | Some f => Ret (Handled (f w))
    | None => default
    end
  | WM_KEYDOWN =>
    match OnKeyDown m with
    | Some f => Ret (Handled (f w l))
    | None => default
    end
  | WM_KEYUP =>
    match OnKeyUp m with
    | Some _ =>
      match OnKeyDown m with
      | Some f => Ret (Handled (f w l))
      | None => Panic
      end
    | None => default
    end
  | WM_CHAR =>
    match OnChar m with
    | Some f => Ret (Handled (f (decodeUnit (to_uint16 w))))
    | None => default
    end
  | WM_MOUSEMOVE =>
    match OnMouseMove m with
    | Some f => Ret (Handled (f low high w))
    | None => default
    end
  | WM_SIZE =>
    match OnSize m with
    | Some f => Ret (Handled (f low high))
    | None => default
    end
  | WM_MOVE =>
    match OnMove m with
    | Some f => Ret (Handled (f low high))
    | None => default
    end
  | WM_ACTIVATE =>
    match OnActivate m with
    | Some activate =>
      Ret (Handled
             ((if negb (w =? 0) then activate else []) ++
              (if w =? 0
               then match OnDeactivate m with Some deactivate => deactivate | None => [] end
               else [])))
    | None => default
    end
  | WM_LBUTTONDOWN => mouse (OnLeftMouseDown m)
  | WM_RBUTTONDOWN => mouse (OnRightMouseDown m)
  | WM_MBUTTONDOWN => mouse (OnMiddleMouseDown m)
  | WM_LBUTTONUP => mouse (OnLeftMouseUp m)
  | WM_RBUTTONUP => mouse (OnRightMouseUp m)
  | WM_MBUTTONUP => mouse (OnMiddleMouseUp m)
  | WM_MOUSEWHEEL =>
    match OnMouseWheel m with
    | Some f =>
      Ret (Handled (f (wheelForward (to_int16 (Z.land (Z.shiftr w 16) 65535)))
                      (mouseX l) (mouseY l) (Z.land w 65535)))
    | None => default
    end
  | WM_DESTROY => Ret (Quit 0)
  | WM_QUIT => default
  | WM_OTHER _ => default
  end.

(** The handler [m] with another function for key-up, resp. for
    deactivation. *)
Definition withOnKeyUp (m : MessageHandler) (h : option (Z -> Z -> list E))
  : MessageHandler :=
  mkMessageHandler (OnKeyDown m) h (OnMouseMove m) (OnMouseWheel m)
    (OnLeftMouseDown m) (OnRightMouseDown m) (OnMiddleMouseDown m)
    (OnLeftMouseUp m) (OnRightMouseUp m) (OnMiddleMouseUp m)
    (OnChar m) (OnSize m) (OnMove m) (OnActivate m) (OnDeactivate m) (OnTimer m).

Definition withOnDeactivate (m : MessageHandler) (h : option (list E))
  : MessageHandler :=
  mkMessageHandler (OnKeyDown m) (OnKeyUp m) (OnMouseMove m) (OnMouseWheel m)
    (OnLeftMouseDown m) (OnRightMouseDown m) (OnMiddleMouseDown m)
    (OnLeftMouseUp m) (OnRightMouseUp m) (OnMiddleMouseUp m)
    (OnChar m) (OnSize m) (OnMove m) (OnActivate m) h (OnTimer m).

End Handler.

(** The message loops.  A retrieved message is a [MSG]; what the loops do
    with it, and the call of the function given to [RunMainGameLoop], is a
    [LoopCall].  [GetMessage] blocks and [PeekMessage] does not: the answers
    of [GetMessage] are a list of return values with the message retrieved,
    and the message queue seen by [PeekMessage] is a list of observations,
    each a waiting message or nothing; [PM_REMOVE] takes the observation,
    [PM_NOREMOVE] leaves a waiting message where it is.  A loop that runs out
    of answers has not returned. *)

Record MSG : Type := mkMSG {
  Hwnd : HWND;
  Message : MessageID;
  WParam : Z;
  LParam : Z
}.

Definition zeroMSG : MSG := mkMSG 0 (WM_OTHER 0) 0 0.

Inductive LoopCall : Type :=
| TranslateMessage (msg : MSG)
| DispatchMessage (msg : MSG)
| Idle.

Fixpoint RunMainLoop (answers : list (Z * MSG)) : list LoopCall * bool :=
  match answers with
  | [] => ([], false)
  | (ret, msg) :: rest =>
    if ret =? 0 then ([], true)
    else
      let (calls, returned) := RunMainLoop rest in
      (TranslateMessage msg :: DispatchMessage msg :: calls, returned)
  end.

Definition isQuit (msg : MSG) : bool :=
  match Message msg with
  | WM_QUIT => true
  | _ => false
  end.

(** [for msg.Message != w32.WM_QUIT { ... }] from the message [msg]. *)
Fixpoint gameLoop (queue : list (option MSG)) (msg : MSG) : list LoopCall * bool :=
  if isQuit msg then ([], true)
  else
    match queue with
    | [] => ([], false)
    | Some next :: rest =>
      let (calls, returned) := gameLoop rest next in
      (TranslateMessage next :: DispatchMessage next :: calls, returned)
    | None :: rest =>
      let (calls, returned) := gameLoop rest msg in
      (Idle :: calls, returned)
    end.

Definition RunMainGameLoop (queue : list (option MSG)) : list LoopCall * bool :=
  match queue with
  | Some first :: _ => gameLoop queue first
  | None :: rest => gameLoop rest zeroMSG
  | [] => gameLoop [] zeroMSG
  end.

(** What the game loop does with one observation of the queue. *)
Definition served (observation : option MSG) : list LoopCall :=
  match observation with
  | Some msg => [TranslateMessage msg; DispatchMessage msg]
  | None => [Idle]
  end.

(** Fullscreen switching.  [WINDOWPLACEMENT] and the style bits
    [WS_OVERLAPPEDWINDOW] belong to package w32, which is not part of the
    sources: they are parameters.  What the functions read from the window
    system is a [Window]; what they ask of it is a list of [Call]s. *)

Inductive SWP : Type :=
| SWP_NOSIZE
| SWP_NOMOVE
| SWP_NOZORDER
| SWP_FRAMECHANGED
| SWP_NOOWNERZORDER.

Section Fullscreen.

Variable WINDOWPLACEMENT : Type.
(** The zero value of [var windowed w32.WINDOWPLACEMENT]. *)
Variable zeroPlacement : WINDOWPLACEMENT.
Variable WS_OVERLAPPEDWINDOW : Z.

(** The answers of [GetWindowLong(window, GWL_STYLE)] (an [int32]), of
    [GetWindowPlacement] (none when it fails) and of [GetMonitorInfo] for the
    monitor of the window (none when it fails). *)
Record Window : Type := mkWindow {
  GetWindowLong : Z;
  GetWindowPlacement : option WINDOWPLACEMENT;
  GetMonitorInfo : option MONITORINFO
}.

Inductive Call : Type :=
| SetWindowLong (window : HWND) (style : Z)
| SetWindowPos (window : HWND) (x y cx cy : Z) (flags : list SWP)
| SetWindowPlacement (window : HWND) (placement : WINDOWPLACEMENT)
| ShowCursor (show : bool).

Definition IsFullscreen (os : Window) : bool :=
  Z.land (GetWindowLong os) WS_OVERLAPPEDWINDOW =? 0.

Definition EnableFullscreen (os : Window) (window : HWND)
  : WINDOWPLACEMENT * list Call :=
  let style := GetWindowLong os in
  match GetWindowPlacement os with
  | Some windowed =>
    match GetMonitorInfo os with
    | Some monitorInfo =>
      (windowed,
       [SetWindowLong window
          (to_uint32 (Z.land style (Z.lnot WS_OVERLAPPEDWINDOW)));
        SetWindowPos window
          (Left (RcMonitor monitorInfo)) (Top (RcMonitor monitorInfo))
          (to_int32 (Right (RcMonitor monitorInfo) - Left (RcMonitor monitorInfo)))
          (to_int32 (Bottom (RcMonitor monitorInfo) - Top (RcMonitor monitorInfo)))
          [SWP_NOOWNERZORDER; SWP_FRAMECHANGED];
        ShowCursor false])
    | None => (windowed, [ShowCursor false])
    end
  | None => (zeroPlacement, [ShowCursor false])
  end.

Definition DisableFullscreen (os : Window) (window : HWND)
  (placement : WINDOWPLACEMENT) : list Call :=
  let style := GetWindowLong os in
  [SetWindowLong window (to_uint32 (Z.lor style WS_OVERLAPPEDWINDOW));
   SetWindowPlacement window placement;
   SetWindowPos window 0 0 0 0
     [SWP_NOMOVE; SWP_NOSIZE; SWP_NOZORDER; SWP_NOOWNERZORDER; SWP_FRAMECHANGED];
   ShowCursor true].

(** The window after [SetWindowLong(window, GWL_STYLE, style)]: the same 32
    bits, read as [GetWindowLong] returns them. *)
Definition restyled (os : Window) (style : Z) : Window :=
  mkWindow (to_int32 style) (GetWindowPlacement os) (GetMonitorInfo os).

End Fullscreen.

(** Window creation.  The style bits [WS_OVERLAPPEDWINDOW] and
    [WS_VISIBLE] belong to package w32 and are parameters, and so is the type
    of the callback.  What [RegisterClassEx], [CreateWindowEx] and
    [LoadCursor] answer is a [System]; the calls made are recorded in
    order. *)

Import Strings.String.

Section NewWindow.

Variable MessageCallback : Type.
Variable WS_OVERLAPPEDWINDOW : Z.
Variable WS_VISIBLE : Z.






End NewWindow.

(** A handler that records the name of the function that ran and its
    integer arguments; nothing is set but what is given. *)
Definition recorder (keyDown keyUp move leftDown deactivate : bool)
  : MessageHandler (nat * list Z) Z :=
  mkMessageHandler (nat * list Z) Z
    (if keyDown then Some (fun key o => [(1%nat, [key; o])]) else None)
    (if keyUp then Some (fun key o => [(2%nat, [key; o])]) else None)
    (if move then Some (fun x y o => [(3%nat, [x; y; o])]) else None)
    None
    (if leftDown then Some (fun x y o => [(5%nat, [x; y; o])]) else None)
    None None None None None None None None None
    (if deactivate then Some [(15%nat, [])] else None)
    None.

End Win.

(** * Vocabulary of the properties *)

Definition normalized (r : RECT) : Prop :=
  Left r <= Right r /\ Top r <= Bottom r.

(** The selection is in the coordinates of the overlay, whose client area is
    the work area: inside it means within [0, width) by [0, height). *)
Definition insideWorkArea (mi : MONITORINFO) (sel : RECT) : Prop :=
  (0 <= Left sel <= Right sel /\ Right sel < Width (RcWork mi)) /\
  (0 <= Top sel <= Bottom sel /\ Bottom sel < Height (RcWork mi)).

(** The message parameter that carries the pointer position ([x], [y]). *)
Definition MAKELPARAM (x y : Z) : Z := x + y * 65536.

(** A work area of 1921 by 1080 pixels, its origin at ([left], 0). *)
Definition monitor1921 (left : Z) : MONITORINFO :=
  mkMONITORINFO (mkRECT left 0 (left + 1921) 1120) (mkRECT left 0 (left + 1921) 1080).

(** A desktop with two monitors side by side: the overlay is window 1,
    window 5 is on the first monitor and is in the foreground at start-up,
    window 7 is on the second monitor and is activated after the pointer is
    released; window 99 is the desktop. *)
Definition twoMonitors : World :=
  {| foreground := [1; 5; 1; 1; 7];
     GetDesktopWindow := 99;
     MonitorFromWindow := fun w => if w =? 5 then 1 else if w =? 7 then 2 else 0;
     GetMonitorInfo := fun m =>
       if m =? 1 then Some (monitor1921 0)
       else if m =? 2 then Some (monitor1921 1921)
       else None;
     ReadFile := Some [x03];
     newWindow := Some 1 |}.

(** A drag from (1000, 600) to (1100, 700) and the release. *)
Definition dragMsgs : list (Msg * Z * Z) :=
  [(WM_LBUTTONDOWN, 1, MAKELPARAM 1000 600);
   (WM_MOUSEMOVE, 1, MAKELPARAM 1100 700);
   (WM_LBUTTONUP, 0, MAKELPARAM 1100 700)].

(** The same desktop with a settings file that exists and is empty. *)
Definition emptySettings : World :=
  {| foreground := foreground twoMonitors;
     GetDesktopWindow := GetDesktopWindow twoMonitors;
     MonitorFromWindow := MonitorFromWindow twoMonitors;
     GetMonitorInfo := GetMonitorInfo twoMonitors;
     ReadFile := Some [];
     newWindow := newWindow twoMonitors |}.

(** The variables while the drag of [dragMsgs] is in progress. *)
Definition dragging : State :=
  mkState (monitor1921 0) true (mkRECT 1000 600 1100 700) 3.

(** The pointer-move messages of a drag, one per pair of message
    parameters ([w], [l]). *)
Definition moveMsgs (moves : list (Z * Z)) : list (Msg * Z * Z) :=
  map (fun p => (WM_MOUSEMOVE, fst p, snd p)) moves.

(** The pointer positions that a list of message parameters carries. *)
Definition pointsOf (ls : list Z) : list (Z * Z) :=
  map (fun l => (pointerX l, pointerY l)) ls.

Definition int16_range (z : Z) : Prop := - 32768 <= z <= 32767.

(** [sel] is the minimal bounding box of the points [pts]: it contains each
    of them and each of its edges passes through one of them. *)
Definition boundingBoxOf (sel : RECT) (pts : list (Z * Z)) : Prop :=
  (forall p, In p pts ->
             Left sel <= fst p <= Right sel /\ Top sel <= snd p <= Bottom sel) /\
  (exists p, In p pts /\ fst p = Left sel) /\
  (exists p, In p pts /\ fst p = Right sel) /\
  (exists p, In p pts /\ snd p = Top sel) /\
  (exists p, In p pts /\ snd p = Bottom sel).

(** * Checks on concrete inputs *)

Example resolve_1920_first_cell :
  resolve (mkMONITORINFO (mkRECT 0 0 1920 1080) (mkRECT 0 0 1920 1080)) 2
          (mkRECT 10 10 20 20) = Ret (0, 0, 960, 540).
Proof. vm_compute. reflexivity. Qed.

Example resolve_1921_last_column :
  resolve (mkMONITORINFO (mkRECT 0 0 1921 1080) (mkRECT 0 0 1921 1080)) 2
          (mkRECT 1000 600 1100 700) = Ret (960, 540, 961, 540).
Proof. vm_compute. reflexivity. Qed.

Example program_twoMonitors :
  option_map acts
    (match program twoMonitors dragMsgs with Ret r => Some r | _ => None end) =
  Some [ShowWindow 1 SW_MINIMIZE; ShowWindow 1 SW_RESTORE;
        SetWindowPos 1 0 0 1921 1080;
        InvalidateRect 1;
        ShowWindow 1 SW_MINIMIZE; ShowWindow 7 SW_RESTORE;
        SetWindowPos 7 640 360 640 360;
        WriteFile [x03]; CloseWindow 1].
Proof. vm_compute. reflexivity. Qed.

(** * Wrap-around is the identity in range *)

Lemma wrap_signed_id (bits z : Z) :
  0 < bits -> - 2 ^ (bits - 1) <= z < 2 ^ (bits - 1) -> wrap_signed bits z = z.
Proof.
  intros Hb Hz. unfold wrap_signed.
  assert (E : 2 ^ bits = 2 * 2 ^ (bits - 1)).
  { replace bits with (Z.succ (bits - 1)) at 1 by lia.
    rewrite Z.pow_succ_r by lia. reflexivity. }
  rewrite Z.mod_small by lia. lia.
Qed.

Lemma to_int_id (z : Z) : int_range z -> to_int z = z.
Proof. intros H. apply wrap_signed_id; [lia | exact H]. Qed.

Lemma to_int32_id (z : Z) : int32_range z -> to_int32 z = z.
Proof. intros H. apply wrap_signed_id; [lia | exact H]. Qed.

Lemma to_int32_in_range (z : Z) : int32_range (to_int32 z).
Proof.
  unfold int32_range, to_int32, wrap_signed.
  pose proof (Z.mod_pos_bound (z + 2 ^ (32 - 1)) (2 ^ 32) ltac:(lia)).
  change (2 ^ (32 - 1)) with 2147483648 in *.
  change (2 ^ 32) with 4294967296 in *.
  change (2 ^ 31) with 2147483648. lia.
Qed.

Lemma int32_range_int (z : Z) : int32_range z -> int_range z.
Proof. unfold int32_range, int_range. lia. Qed.

Lemma Width_in_range (r : RECT) : int32_range (Width r).
Proof. apply to_int32_in_range. Qed.

Lemma Height_in_range (r : RECT) : int32_range (Height r).
Proof. apply to_int32_in_range. Qed.

(** Truncated division by a positive divisor moves toward zero. *)
Lemma quot_toward_zero (a b : Z) :
  0 < b ->
  (0 <= a -> 0 <= a ÷ b <= a /\ 0 <= a ÷ b * b <= a) /\
  (a <= 0 -> a <= a ÷ b <= 0 /\ a <= a ÷ b * b <= 0).
Proof.
  intros Hb. pose proof (Z.quot_rem' a b) as E. split; intros Ha.
  - pose proof (Z.rem_bound_pos a b Ha Hb).
    pose proof (Z.quot_pos a b Ha Hb). nia.
  - assert (a = 0 \/ a < 0) as [-> | Hneg] by lia.
    + rewrite Z.quot_0_l by lia. lia.
    + pose proof (Z.rem_bound_pos_neg a b Hb Ha).
      assert (a ÷ b <= 0) by nia. nia.
Qed.

Lemma go_div_exact (a b : Z) :
  0 < b -> int32_range a -> go_div a b = Ret (a ÷ b).
Proof.
  intros Hb Ha. unfold go_div.
  destruct (Z.eqb_spec b 0) as [-> | _]; [lia |].
  rewrite to_int_id; [reflexivity |].
  unfold int32_range in Ha. unfold int_range.
  destruct (quot_toward_zero a b Hb) as [P N].
  destruct (Z_le_gt_dec 0 a); [specialize (P ltac:(lia)) | specialize (N ltac:(lia))]; lia.
Qed.

Lemma go_mod_exact (a b : Z) :
  0 < b -> 0 <= a -> int32_range a -> go_mod a b = Ret (Z.rem a b).
Proof.
  intros Hb Ha Hr. unfold go_mod.
  destruct (Z.eqb_spec b 0) as [-> | _]; [lia |].
  rewrite to_int_id; [reflexivity |].
  pose proof (Z.rem_bound_pos a b Ha Hb).
  pose proof (Z.rem_le a b Ha Hb).
  unfold int32_range in Hr. unfold int_range. lia.
Qed.

(** The tile size is at least one pixel when the work area has at least
    [n] pixels, and [n] tiles fit. *)
Lemma tile_size_bounds (size n : Z) :
  0 < n -> n <= size ->
  1 <= size ÷ n <= size /\ n * (size ÷ n) <= size.
Proof.
  intros Hn Hs.
  pose proof (Z.quot_rem' size n) as E.
  pose proof (Z.rem_bound_pos size n ltac:(lia) Hn).
  assert (1 <= size ÷ n) by nia. nia.
Qed.

(** One axis of the geometry, free of wrap-around: the snapped start, the
    clamped end and the end after the remainder was added. *)
Lemma resolve_exact (mi : MONITORINFO) (n : Z) (sel : RECT) :
  0 < n -> n <= Width (RcWork mi) -> n <= Height (RcWork mi) ->
  RECT_wf (RcWork mi) -> RECT_wf sel ->
  let W := Width (RcWork mi) in
  let H := Height (RcWork mi) in
  let tileW := W ÷ n in
  let tileH := H ÷ n in
  let x0 := Left sel ÷ tileW * tileW in
  let y0 := Top sel ÷ tileH * tileH in
  let x1 := Z.min W (Right sel ÷ tileW * tileW + tileW) in
  let y1 := Z.min H (Bottom sel ÷ tileH * tileH + tileH) in
  let x2 := if Right sel ÷ tileW =? n - 1 then x1 + Z.rem W tileW else x1 in
  let y2 := if Bottom sel ÷ tileH =? n - 1 then y1 + Z.rem H tileH else y1 in
  resolve mi n sel =
  Ret (Left (RcWork mi) + x0, Top (RcWork mi) + y0, x2 - x0, y2 - y0).
Proof.
  intros Hn HW HH [wl [wt [wr wb]]] [sl [stp [sr sb]]].
  pose proof (Width_in_range (RcWork mi)) as RW.
  pose proof (Height_in_range (RcWork mi)) as RH.
  cbv zeta. unfold resolve.
  set (W := Width (RcWork mi)) in *. set (H := Height (RcWork mi)) in *.
  destruct (tile_size_bounds W n Hn HW) as [TW TWn].
  destruct (tile_size_bounds H n Hn HH) as [TH THn].
  rewrite (go_div_exact W n), (go_div_exact H n) by assumption.
  cbn [bind].
  set (tw := W ÷ n) in *. set (th := H ÷ n) in *.
  rewrite !(go_div_exact _ tw), !(go_div_exact _ th) by (assumption || lia).
  cbn [bind].
  unfold int32_range in *.
  pose proof (quot_toward_zero (Left sel) tw ltac:(lia)) as [QL1 QL2].
  pose proof (quot_toward_zero (Top sel) th ltac:(lia)) as [QT1 QT2].
  pose proof (quot_toward_zero (Right sel) tw ltac:(lia)) as [QR1 QR2].
  pose proof (quot_toward_zero (Bottom sel) th ltac:(lia)) as [QB1 QB2].
  assert (BL : - 2 ^ 31 <= Left sel ÷ tw * tw < 2 ^ 31).
  { destruct (Z_le_gt_dec 0 (Left sel)); [specialize (QL1 ltac:(lia)) | specialize (QL2 ltac:(lia))]; lia. }
  assert (BT : - 2 ^ 31 <= Top sel ÷ th * th < 2 ^ 31).
  { destruct (Z_le_gt_dec 0 (Top sel)); [specialize (QT1 ltac:(lia)) | specialize (QT2 ltac:(lia))]; lia. }
  assert (BR : - 2 ^ 31 <= Right sel ÷ tw * tw < 2 ^ 31).
  { destruct (Z_le_gt_dec 0 (Right sel)); [specialize (QR1 ltac:(lia)) | specialize (QR2 ltac:(lia))]; lia. }
  assert (BB : - 2 ^ 31 <= Bottom sel ÷ th * th < 2 ^ 31).
  { destruct (Z_le_gt_dec 0 (Bottom sel)); [specialize (QB1 ltac:(lia)) | specialize (QB2 ltac:(lia))]; lia. }
  clear QL1 QL2 QT1 QT2 QR1 QR2 QB1 QB2.
  pose proof (Z.rem_bound_pos W tw ltac:(lia) ltac:(lia)) as MW.
  pose proof (Z.rem_bound_pos H th ltac:(lia) ltac:(lia)) as MH.
  rewrite (to_int_id (n - 1)) by (unfold int_range; lia).
  rewrite !(to_int_id (_ * _)) by (unfold int_range; lia).
  rewrite !(to_int_id (_ * _ + _)) by (unfold int_range; lia).
  assert (CX : (if Right sel ÷ tw * tw + tw >? W then W else Right sel ÷ tw * tw + tw)
               = Z.min W (Right sel ÷ tw * tw + tw)).
  { destruct (Z.gtb_spec (Right sel ÷ tw * tw + tw) W); lia. }
  assert (CY : (if Bottom sel ÷ th * th + th >? H then H else Bottom sel ÷ th * th + th)
               = Z.min H (Bottom sel ÷ th * th + th)).
  { destruct (Z.gtb_spec (Bottom sel ÷ th * th + th) H); lia. }
  rewrite CX, CY.
  rewrite (go_mod_exact W tw), (go_mod_exact H th) by (unfold int32_range; lia).
  destruct (Right sel ÷ tw =? n - 1); destruct (Bottom sel ÷ th =? n - 1);
    cbn [bind];
    rewrite ?(to_int_id (Z.min _ _ + _)) by (unfold int_range; lia);
    rewrite !to_int_id by (unfold int_range; lia); reflexivity.
Qed.

Lemma insideWorkArea_wf (mi : MONITORINFO) (sel : RECT) :
  insideWorkArea mi sel -> RECT_wf sel.
Proof.
  intros [[Hx Hr] [Hy Hb]].
  pose proof (Width_in_range (RcWork mi)) as RW.
  pose proof (Height_in_range (RcWork mi)) as RH.
  unfold RECT_wf, int32_range in *. lia.
Qed.

(** * The geometry that the pointer-up handler applies *)

(** C2, as the claim words it, fails: for a work area of 1921 by 1080 pixels
    and N = 2, a selection that ends in the last column is not given the
    clamped [x1] of steps 1 to 4; the handler adds the remainder
    [1921 % 960 = 1] before it takes [x1 - x0]. *)
Lemma C2_counterexample :
  ~ (forall (mi : MONITORINFO) (n : Z) (sel : RECT),
        2 <= n <= 9 ->
        n <= Width (RcWork mi) -> n <= Height (RcWork mi) ->
        RECT_wf (RcWork mi) -> insideWorkArea mi sel ->
        let W := Width (RcWork mi) in
        let H := Height (RcWork mi) in
        let tileW := W ÷ n in
        let tileH := H ÷ n in
        let x0 := Left sel ÷ tileW * tileW in
        let y0 := Top sel ÷ tileH * tileH in
        let x1 := Z.min W (Right sel ÷ tileW * tileW + tileW) in
        let y1 := Z.min H (Bottom sel ÷ tileH * tileH + tileH) in
        resolve mi n sel =
        Ret (Left (RcWork mi) + x0, Top (RcWork mi) + y0, x1 - x0, y1 - y0)).
Proof.
  intros claim.
  specialize (claim (monitor1921 0) 2 (mkRECT 1000 600 1100 700)).
  assert (Hyp : insideWorkArea (monitor1921 0) (mkRECT 1000 600 1100 700)).
  { unfold insideWorkArea. vm_compute. intuition discriminate. }
  assert (Hwf : RECT_wf (RcWork (monitor1921 0))).
  { unfold RECT_wf, int32_range. vm_compute. intuition discriminate. }
  specialize (claim ltac:(lia) ltac:(vm_compute; discriminate)
                    ltac:(vm_compute; discriminate) Hwf Hyp).
  vm_compute in claim. discriminate claim.
Qed.

(** C2 (amended): for a tile count N in [2,9], a work area at least N pixels
    wide and high and a selection inside it, the handler neither panics nor
    wraps around, and the geometry it applies is
    [(workArea.left + x0, workArea.top + y0, x1 - x0, y1 - y0)] where
    [tileW = width / N], [tileH = height / N] (truncating),
    [x0 = selection.left / tileW * tileW], [y0] likewise, and [x1] is
    [selection.right / tileW * tileW + tileW] clamped to [width] and then
    increased by [width % tileW] when [selection.right / tileW = N - 1];
    [y1] likewise with the height. *)
Theorem C2_resolved_geometry (mi : MONITORINFO) (n : Z) (sel : RECT) :
  2 <= n <= 9 ->
  n <= Width (RcWork mi) -> n <= Height (RcWork mi) ->
  RECT_wf (RcWork mi) -> insideWorkArea mi sel ->
  let W := Width (RcWork mi) in
  let H := Height (RcWork mi) in
  let tileW := W ÷ n in
  let tileH := H ÷ n in
  let x0 := Left sel ÷ tileW * tileW in
  let y0 := Top sel ÷ tileH * tileH in
  let x1 := Z.min W (Right sel ÷ tileW * tileW + tileW) in
  let y1 := Z.min H (Bottom sel ÷ tileH * tileH + tileH) in
  let x1' := if Right sel ÷ tileW =? n - 1 then x1 + Z.rem W tileW else x1 in
  let y1' := if Bottom sel ÷ tileH =? n - 1 then y1 + Z.rem H tileH else y1 in
  resolve mi n sel =
  Ret (Left (RcWork mi) + x0, Top (RcWork mi) + y0, x1' - x0, y1' - y0).
Proof.
  intros Hn HW HH Hwf Hin.
  apply resolve_exact; try assumption; try lia.
  exact (insideWorkArea_wf mi sel Hin).
Qed.

Lemma C2_resolved_geometry_witness :
  resolve (monitor1921 0) 2 (mkRECT 1000 600 1100 700) = Ret (960, 540, 961, 540).
Proof.
  assert (Hyp : insideWorkArea (monitor1921 0) (mkRECT 1000 600 1100 700)).
  { unfold insideWorkArea. vm_compute. intuition discriminate. }
  assert (Hwf : RECT_wf (RcWork (monitor1921 0))).
  { unfold RECT_wf, int32_range. vm_compute. intuition discriminate. }
  rewrite (C2_resolved_geometry (monitor1921 0) 2 (mkRECT 1000 600 1100 700)
             ltac:(lia) ltac:(vm_compute; discriminate)
             ltac:(vm_compute; discriminate) Hwf Hyp).
  vm_compute. reflexivity.
Defined.

(** C3: for N in [2,9] and a work area at least N pixels wide and high, the
    end [x1] of the geometry is the clamped end plus an extra that is exactly
    [width % tileW] when the right edge of the selection is in the last
    column ([selection.right / tileW = N - 1]) and zero for every other
    column; the same holds for the bottom edge with [height % tileH]. *)
Theorem C3_remainder_absorption (mi : MONITORINFO) (n : Z) (sel : RECT) :
  2 <= n <= 9 ->
  n <= Width (RcWork mi) -> n <= Height (RcWork mi) ->
  RECT_wf (RcWork mi) -> RECT_wf sel ->
  let W := Width (RcWork mi) in
  let H := Height (RcWork mi) in
  let tileW := W ÷ n in
  let tileH := H ÷ n in
  let x0 := Left sel ÷ tileW * tileW in
  let y0 := Top sel ÷ tileH * tileH in
  let x1 := Z.min W (Right sel ÷ tileW * tileW + tileW) in
  let y1 := Z.min H (Bottom sel ÷ tileH * tileH + tileH) in
  exists extraX extraY : Z,
    resolve mi n sel =
    Ret (Left (RcWork mi) + x0, Top (RcWork mi) + y0,
         x1 + extraX - x0, y1 + extraY - y0) /\
    (Right sel ÷ tileW = n - 1 -> extraX = Z.rem W tileW) /\
    (Right sel ÷ tileW <> n - 1 -> extraX = 0) /\
    (Bottom sel ÷ tileH = n - 1 -> extraY = Z.rem H tileH) /\
    (Bottom sel ÷ tileH <> n - 1 -> extraY = 0).
Proof.
  intros Hn HW HH Hwf Hsel. cbv zeta.
  rewrite (resolve_exact mi n sel) by (assumption || lia).
  destruct (Z.eqb_spec (Right sel ÷ (Width (RcWork mi) ÷ n)) (n - 1)) as [Ex | Ex];
  destruct (Z.eqb_spec (Bottom sel ÷ (Height (RcWork mi) ÷ n)) (n - 1)) as [Ey | Ey].
  - exists (Z.rem (Width (RcWork mi)) (Width (RcWork mi) ÷ n)),
           (Z.rem (Height (RcWork mi)) (Height (RcWork mi) ÷ n)).
    repeat split; congruence.
  - exists (Z.rem (Width (RcWork mi)) (Width (RcWork mi) ÷ n)), 0.
    rewrite Z.add_0_r. repeat split; congruence.
  - exists 0, (Z.rem (Height (RcWork mi)) (Height (RcWork mi) ÷ n)).
    rewrite Z.add_0_r. repeat split; congruence.
  - exists 0, 0. rewrite !Z.add_0_r. repeat split; congruence.
Qed.

Lemma C3_remainder_absorption_witness :
  exists extraX extraY : Z,
    resolve (monitor1921 0) 2 (mkRECT 1000 100 1100 200) =
    Ret (0 + 960, 0 + 0, 1920 + extraX - 960, 540 + extraY - 0) /\
    extraX = 1 /\ extraY = 0.
Proof.
  assert (Hsel : RECT_wf (mkRECT 1000 100 1100 200)).
  { unfold RECT_wf, int32_range. vm_compute. intuition discriminate. }
  assert (Hwf : RECT_wf (RcWork (monitor1921 0))).
  { unfold RECT_wf, int32_range. vm_compute. intuition discriminate. }
  destruct (C3_remainder_absorption (monitor1921 0) 2 (mkRECT 1000 100 1100 200)
              ltac:(lia) ltac:(vm_compute; discriminate)
              ltac:(vm_compute; discriminate) Hwf Hsel)
    as (ex & ey & E & X1 & X0 & Y1 & Y0).
  exists ex, ey. split; [exact E | split].
  - apply X1. vm_compute. reflexivity.
  - apply Y0. vm_compute. discriminate.
Defined.

(** * The overlay painting *)

Lemma nth_error_flat_map_uniform {A B : Type} (f : A -> list B) (k : nat) (l : list A) :
  (forall a, length (f a) = k) ->
  forall (i j : nat) (a : A),
    nth_error l i = Some a -> (j < k)%nat ->
    nth_error (flat_map f l) (i * k + j) = nth_error (f a) j.
Proof.
  intros Hlen. induction l as [| b l IH]; intros i j a Hi Hj.
  - destruct i; discriminate Hi.
  - destruct i as [| i]; cbn [flat_map].
    + injection Hi as ->. cbn [Nat.mul Nat.add].
      apply nth_error_app1. rewrite Hlen. exact Hj.
    + cbn [nth_error] in Hi.
      rewrite nth_error_app2 by (rewrite Hlen; cbn [Nat.mul]; lia).
      rewrite Hlen.
      replace (S i * k + j - k)%nat with (i * k + j)%nat by (cbn [Nat.mul]; lia).
      apply IH; assumption.
Qed.

Lemma length_loopRange (n : Z) : length (loopRange n) = Z.to_nat n.
Proof. unfold loopRange. rewrite length_map, length_seq. reflexivity. Qed.

Lemma nth_error_loopRange (n i : Z) :
  0 <= i < n -> nth_error (loopRange n) (Z.to_nat i) = Some i.
Proof.
  intros Hi. unfold loopRange.
  rewrite nth_error_map, nth_error_seq.
  destruct (Nat.ltb_spec (Z.to_nat i) (Z.to_nat n)) as [_ | Hge]; [| lia].
  cbn [option_map Nat.add]. rewrite Z2Nat.id by lia. reflexivity.
Qed.

(** The cell ([x], [y]) is painted after the cells of the columns before
    [x] and the cells above it in its own column. *)
Lemma nth_error_paintCells (w h n : Z) (sel : RECT) (x y : Z) :
  0 <= x < n -> 0 <= y < n ->
  nth_error (paintCells w h n sel) (Z.to_nat (x * n + y)) =
  Some (paintCell w h sel x y).
Proof.
  intros Hx Hy. unfold paintCells.
  replace (Z.to_nat (x * n + y)) with (Z.to_nat x * Z.to_nat n + Z.to_nat y)%nat
    by (rewrite Z2Nat.inj_add, Z2Nat.inj_mul by nia; reflexivity).
  rewrite (nth_error_flat_map_uniform _ (Z.to_nat n) (loopRange n)) with (a := x).
  - rewrite nth_error_map, nth_error_loopRange by assumption. reflexivity.
  - intros a. rewrite length_map. apply length_loopRange.
  - apply nth_error_loopRange. assumption.
  - lia.
Qed.

Lemma length_flat_map_uniform {A B : Type} (f : A -> list B) (k : nat) (l : list A) :
  (forall a, length (f a) = k) -> length (flat_map f l) = (length l * k)%nat.
Proof.
  intros Hlen. induction l as [| a l IH]; [reflexivity |].
  cbn [flat_map length Nat.mul]. rewrite length_app, Hlen, IH. reflexivity.
Qed.

Lemma length_paintCells (w h n : Z) (sel : RECT) :
  length (paintCells w h n sel) = (Z.to_nat n * Z.to_nat n)%nat.
Proof.
  unfold paintCells.
  rewrite (length_flat_map_uniform _ (Z.to_nat n)), length_loopRange; [reflexivity |].
  intros a. rewrite length_map. apply length_loopRange.
Qed.

(** The cell rectangle, free of wrap-around. *)
Lemma cellRect_exact (size n x : Z) :
  2 <= n <= 9 -> n <= size -> int32_range size -> 0 <= x < n ->
  to_int32 (to_int32 (to_int (x * (size ÷ n))) + 2) = x * (size ÷ n) + 2 /\
  to_int32 (to_int32 (to_int (to_int (x + 1) * (size ÷ n))) - 4)
  = (x + 1) * (size ÷ n) - 4.
Proof.
  intros Hn Hs Hr Hx.
  destruct (tile_size_bounds size n ltac:(lia) Hs) as [T Tn].
  unfold int32_range in Hr.
  assert (B1 : 0 <= x * (size ÷ n) /\ x * (size ÷ n) + (size ÷ n) <= size) by nia.
  assert (B2 : x * (size ÷ n) + 2 < 2 ^ 31).
  { assert (size ÷ n = 1 \/ 2 <= size ÷ n) as [E | E] by lia.
    - rewrite E. lia.
    - lia. }
  rewrite (to_int_id (x + 1)) by (unfold int_range; lia).
  rewrite !(to_int_id (_ * _)) by (unfold int_range; nia).
  rewrite !(to_int32_id (_ * _)) by (unfold int32_range; nia).
  rewrite !to_int32_id by (unfold int32_range; nia).
  split; reflexivity.
Qed.

(** C4, as the claim words it, fails: with a work area of 1921 by 1080
    pixels and N = 2, the rectangle filled for the cell (0, 0) is
    (2, 2, 956, 536), not the tile (0, 0, 960, 540) inset by 2 pixels on
    every edge, which would be (2, 2, 958, 538). *)
Lemma C4_counterexample :
  ~ (forall (window : HWND) (mi : MONITORINFO) (n : Z) (sel : RECT) (x y : Z),
        2 <= n <= 9 ->
        n <= Width (RcWork mi) -> n <= Height (RcWork mi) ->
        0 <= x < n -> 0 <= y < n ->
        let tileW := Width (RcWork mi) ÷ n in
        let tileH := Height (RcWork mi) ÷ n in
        exists (actions : list Action) (color : Color),
          paint window mi n sel = Ret actions /\
          nth_error actions (2 + Z.to_nat (x * n + y)) =
          Some (FillRect {| Left := x * tileW + 2;
                            Top := y * tileH + 2;
                            Right := (x + 1) * tileW - 2;
                            Bottom := (y + 1) * tileH - 2 |} color)).
Proof.
  intros claim.
  destruct (claim 1 (monitor1921 0) 2 zeroRECT 0 0
              ltac:(lia) ltac:(vm_compute; discriminate)
              ltac:(vm_compute; discriminate) ltac:(lia) ltac:(lia))
    as (actions & color & Hp & Hn).
  vm_compute in Hp. injection Hp as <-.
  vm_compute in Hn. discriminate Hn.
Qed.

(** C4 (amended): for N in [2,9], a work area at least N pixels wide and
    high and a cell (x, y) with x, y in [0, N), the overlay painting fills,
    after the background, in column-major order, the tile rectangle
    ([x*tileW .. (x+1)*tileW], [y*tileH .. (y+1)*tileH]) inset by 2 pixels at
    its left and top edges and by 4 pixels at its right and bottom edges: a
    total shrink of 6 pixels per axis. *)
Theorem C4_cell_rectangle
    (window : HWND) (mi : MONITORINFO) (n : Z) (sel : RECT) (x y : Z) :
  2 <= n <= 9 ->
  n <= Width (RcWork mi) -> n <= Height (RcWork mi) ->
  0 <= x < n -> 0 <= y < n ->
  let tileW := Width (RcWork mi) ÷ n in
  let tileH := Height (RcWork mi) ÷ n in
  let r := {| Left := x * tileW + 2;
              Top := y * tileH + 2;
              Right := (x + 1) * tileW - 4;
              Bottom := (y + 1) * tileH - 4 |} in
  (exists (actions : list Action) (color : Color),
      paint window mi n sel = Ret actions /\
      nth_error actions (2 + Z.to_nat (x * n + y)) = Some (FillRect r color)) /\
  Right r - Left r = tileW - 6 /\
  Bottom r - Top r = tileH - 6.
Proof.
  intros Hn HW HH Hx Hy. cbv zeta. cbn [Left Right Top Bottom].
  split; [| lia].
  pose proof (Width_in_range (RcWork mi)) as RW.
  pose proof (Height_in_range (RcWork mi)) as RH.
  unfold paint.
  rewrite (go_div_exact (Width (RcWork mi)) n), (go_div_exact (Height (RcWork mi)) n)
    by (assumption || lia).
  cbn [bind].
  eexists. exists (if overlap (cellRect (Width (RcWork mi) ÷ n) (Height (RcWork mi) ÷ n) x y) sel
                   then inColor else foreColor).
  split; [reflexivity |].
  cbn [app nth_error Nat.add].
  rewrite nth_error_app1.
  2:{ rewrite length_paintCells. nia. }
  rewrite nth_error_paintCells by assumption.
  unfold paintCell. f_equal. f_equal.
  destruct (cellRect_exact (Width (RcWork mi)) n x Hn HW RW Hx) as [EL ER].
  destruct (cellRect_exact (Height (RcWork mi)) n y Hn HH RH Hy) as [ET EB].
  unfold cellRect. rewrite EL, ER, ET, EB. reflexivity.
Qed.

Lemma C4_cell_rectangle_witness :
  exists (actions : list Action) (color : Color),
    paint 1 (monitor1921 0) 2 zeroRECT = Ret actions /\
    nth_error actions 5 = Some (FillRect (mkRECT 962 542 1916 1076) color).
Proof.
  exact (proj1 (C4_cell_rectangle 1 (monitor1921 0) 2 zeroRECT 1 1
                  ltac:(lia) ltac:(vm_compute; discriminate)
                  ltac:(vm_compute; discriminate) ltac:(lia) ltac:(lia))).
Defined.

(** C5: the overlap test that picks the highlight colour of a cell is true
    exactly when [selection.right >= cell.left], [selection.left < cell.right],
    [selection.bottom >= cell.top] and [selection.top < cell.bottom]; the
    painting fills the cell with the highlight colour exactly when it is. *)
Theorem C5_overlap_test (cell sel : RECT) :
  (overlap cell sel = true <->
   Right sel >= Left cell /\ Left sel < Right cell /\
   Bottom sel >= Top cell /\ Top sel < Bottom cell) /\
  (forall w h x y : Z,
      paintCell w h sel x y = FillRect (cellRect w h x y) inColor <->
      overlap (cellRect w h x y) sel = true).
Proof.
  split.
  - unfold overlap. rewrite !andb_true_iff.
    rewrite !Z.geb_le, !Z.ltb_lt. intuition lia.
  - intros w h x y. unfold paintCell.
    destruct (overlap (cellRect w h x y) sel); split; intros E;
      try reflexivity; discriminate E.
Qed.

(** * The zero-area drag *)

(** Releasing where the pointer was pressed never gives an empty geometry. *)
Lemma zero_area_drag_positive (mi : MONITORINFO) (n px py : Z) :
  2 <= n <= 9 ->
  n <= Width (RcWork mi) -> n <= Height (RcWork mi) ->
  RECT_wf (RcWork mi) ->
  0 <= px < Width (RcWork mi) -> 0 <= py < Height (RcWork mi) ->
  exists x y cx cy : Z,
    resolve mi n (mkRECT px py px py) = Ret (x, y, cx, cy) /\ 0 < cx /\ 0 < cy.
Proof.
  intros Hn HW HH Hwf Hx Hy.
  assert (Hin : insideWorkArea mi (mkRECT px py px py)).
  { unfold insideWorkArea. cbn [Left Right Top Bottom]. lia. }
  rewrite (resolve_exact mi n (mkRECT px py px py))
    by (assumption || lia || exact (insideWorkArea_wf _ _ Hin)).
  cbn [Left Right Top Bottom].
  destruct (tile_size_bounds (Width (RcWork mi)) n ltac:(lia) HW) as [TW _].
  destruct (tile_size_bounds (Height (RcWork mi)) n ltac:(lia) HH) as [TH _].
  set (W := Width (RcWork mi)) in *. set (H := Height (RcWork mi)) in *.
  set (tw := W ÷ n) in *. set (th := H ÷ n) in *.
  destruct (quot_toward_zero px tw ltac:(lia)) as [QX _].
  destruct (quot_toward_zero py th ltac:(lia)) as [QY _].
  specialize (QX ltac:(lia)). specialize (QY ltac:(lia)).
  pose proof (Z.rem_bound_pos W tw ltac:(lia) ltac:(lia)).
  pose proof (Z.rem_bound_pos H th ltac:(lia) ltac:(lia)).
  do 4 eexists. split; [reflexivity |].
  destruct (px ÷ tw =? n - 1); destruct (py ÷ th =? n - 1); lia.
Qed.

(** Inside the grid of N by N tiles, releasing where the pointer was
    pressed gives the tile under the pointer, the last column and the last
    row widened by the remainder. *)
Lemma zero_area_drag_in_grid (mi : MONITORINFO) (n px py : Z) :
  2 <= n <= 9 ->
  n <= Width (RcWork mi) -> n <= Height (RcWork mi) ->
  RECT_wf (RcWork mi) ->
  let W := Width (RcWork mi) in
  let H := Height (RcWork mi) in
  let tileW := W ÷ n in
  let tileH := H ÷ n in
  0 <= px < n * tileW -> 0 <= py < n * tileH ->
  let col := px ÷ tileW in
  let row := py ÷ tileH in
  (0 <= col < n /\ 0 <= row < n) /\
  resolve mi n (mkRECT px py px py) =
  Ret (Left (RcWork mi) + col * tileW, Top (RcWork mi) + row * tileH,
       tileW + (if col =? n - 1 then Z.rem W tileW else 0),
       tileH + (if row =? n - 1 then Z.rem H tileH else 0)).
Proof.
  intros Hn HW HH Hwf. cbv zeta. intros Hx Hy.
  destruct (tile_size_bounds (Width (RcWork mi)) n ltac:(lia) HW) as [TW TWn].
  destruct (tile_size_bounds (Height (RcWork mi)) n ltac:(lia) HH) as [TH THn].
  assert (Hin : insideWorkArea mi (mkRECT px py px py)).
  { unfold insideWorkArea. cbn [Left Right Top Bottom]. lia. }
  rewrite (resolve_exact mi n (mkRECT px py px py))
    by (assumption || lia || exact (insideWorkArea_wf _ _ Hin)).
  cbn [Left Right Top Bottom].
  set (W := Width (RcWork mi)) in *. set (H := Height (RcWork mi)) in *.
  set (tw := W ÷ n) in *. set (th := H ÷ n) in *.
  pose proof (Z.quot_rem' px tw) as EX.
  pose proof (Z.rem_bound_pos px tw ltac:(lia) ltac:(lia)) as RX.
  pose proof (Z.quot_rem' py th) as EY.
  pose proof (Z.rem_bound_pos py th ltac:(lia) ltac:(lia)) as RY.
  assert (CX : 0 <= px ÷ tw < n) by nia.
  assert (CY : 0 <= py ÷ th < n) by nia.
  split; [split; assumption |].
  assert (MX : Z.min W (px ÷ tw * tw + tw) = px ÷ tw * tw + tw) by nia.
  assert (MY : Z.min H (py ÷ th * th + th) = py ÷ th * th + th) by nia.
  rewrite MX, MY.
  destruct (px ÷ tw =? n - 1); destruct (py ÷ th =? n - 1); f_equal; f_equal; try lia;
    f_equal; lia.
Qed.

(** C6: the code at the failing input.  The work area is 1366 by 728 pixels
    and N = 9, so a tile is 151 by 80 pixels and the nine columns end at
    pixel 1359; the pointer is pressed and released at (1362, 100), inside
    the work area but to the right of the last column.  The geometry applied
    to the activated window is 7 pixels wide: the strip of the remainder, not
    a tile (151 pixels wide, or 158 for the last column). *)
Theorem C6_zero_area_drag_in_remainder_strip :
  let mi := mkMONITORINFO (mkRECT 0 0 1366 768) (mkRECT 0 0 1366 728) in
  let s0 := mkState mi false zeroRECT 9 in
  let s1 := st (onLButtonDown s0 [] (MAKELPARAM 1362 100)) in
  selection s1 = mkRECT 1362 100 1362 100 /\
  insideWorkArea mi (selection s1) /\
  Width (RcWork mi) ÷ 9 = 151 /\
  Z.rem (Width (RcWork mi)) 151 = 7 /\
  resolve (info s1) (tiles s1) (selection s1) = Ret (1359, 80, 7, 80) /\
  wndProc twoMonitors 1 s1 [7] WM_LBUTTONUP 0 (MAKELPARAM 1362 100) =
  Ret (mkStep s1 []
         [ShowWindow 1 SW_MINIMIZE; ShowWindow 7 SW_RESTORE;
          SetWindowPos 7 1359 80 7 80; WriteFile [x09]; CloseWindow 1]).
Proof.
  cbv zeta. repeat split; try (vm_compute; reflexivity); vm_compute; discriminate.
Qed.

(** * Invariants of the window procedure *)

Lemma min_spec (a b : Z) : min a b = Z.min a b.
Proof. unfold min. destruct (Z.ltb_spec a b); lia. Qed.

Lemma max_spec (a b : Z) : max a b = Z.max a b.
Proof. unfold max. destruct (Z.gtb_spec a b); lia. Qed.

Lemma RECT_eqb_eq (a b : RECT) : RECT_eqb a b = true <-> a = b.
Proof.
  unfold RECT_eqb. rewrite !andb_true_iff, !Z.eqb_eq.
  destruct a, b; cbn [Left Top Right Bottom]. split.
  - intros [[[-> ->] ->] ->]. reflexivity.
  - intros E. injection E as -> -> -> ->. auto.
Qed.

(** Every run of the program is a start-up followed by the dispatch of the
    messages. *)
Lemma program_inv (world : World) (msgs : list (Msg * Z * Z)) (r : Step) :
  program world msgs = Ret r ->
  exists (window : HWND) (r0 rd : Step),
    startup world = Ret (window, r0) /\
    dispatch world window (st r0) (polls r0) msgs = Ret rd /\
    st r = st rd /\ polls r = polls rd /\ acts r = acts r0 ++ acts rd.
Proof.
  unfold program. intros Hp.
  destruct (startup world) as [[window r0] | |]; cbn [bind] in Hp; try discriminate Hp.
  destruct (dispatch world window (st r0) (polls r0) msgs) as [rd | |] eqn:Hd;
    cbn [bind] in Hp; try discriminate Hp.
  injection Hp as <-. exists window, r0, rd. cbn [st polls acts]. repeat split; auto.
Qed.

Lemma startup_inv (world : World) (window : HWND) (r0 : Step) :
  startup world = Ret (window, r0) ->
  exists (n : Z) (w0 : HWND) (mi : MONITORINFO),
    newWindow world = Some window /\
    readTiles (ReadFile world) = Ret n /\
    awaitForeground window (foreground world) = Some (w0, polls r0) /\
    MonitorFromWindow world w0 <> 0 /\
    GetMonitorInfo world (MonitorFromWindow world w0) = Some mi /\
    st r0 = mkState mi false zeroRECT n.
Proof.
  unfold startup. intros Hs.
  destruct (newWindow world) as [h |]; [| discriminate Hs].
  destruct (readTiles (ReadFile world)) as [n | |]; cbn [bind] in Hs; try discriminate Hs.
  destruct (awaitForeground h (foreground world)) as [[w0 fg'] |] eqn:Hfg; [| discriminate Hs].
  destruct (Z.eqb_spec (MonitorFromWindow world w0) 0) as [| Hm]; [discriminate Hs |].
  destruct (GetMonitorInfo world (MonitorFromWindow world w0)) as [mi |] eqn:Hi;
    [| discriminate Hs].
  injection Hs as <- <-. exists n, w0, mi. cbn [st polls]. repeat split; auto.
Qed.

(** An invariant of the variables that start-up establishes and every
    handler keeps holds after every run. *)
Section Invariant.
Variable Inv : State -> Prop.
Variable world : World.
Hypothesis Inv_step :
  forall (window : HWND) (s : State) (fg : list HWND) (msg : Msg) (w l : Z) (r : Step),
    Inv s -> wndProc world window s fg msg w l = Ret r -> Inv (st r).

Lemma dispatch_invariant (window : HWND) (msgs : list (Msg * Z * Z)) :
  forall (s : State) (fg : list HWND) (r : Step),
    Inv s -> dispatch world window s fg msgs = Ret r -> Inv (st r).
Proof.
  induction msgs as [| [[msg w] l] rest IH]; intros s fg r Hs Hd; cbn [dispatch] in Hd.
  - injection Hd as <-. exact Hs.
  - destruct (wndProc world window s fg msg w l) as [r1 | |] eqn:E1;
      cbn [bind] in Hd; try discriminate Hd.
    destruct (dispatch world window (st r1) (polls r1) rest) as [r2 | |] eqn:E2;
      cbn [bind] in Hd; try discriminate Hd.
    injection Hd as <-. cbn [st].
    apply (IH (st r1) (polls r1) r2); [| exact E2].
    exact (Inv_step window s fg msg w l r1 Hs E1).
Qed.

Lemma program_invariant (msgs : list (Msg * Z * Z)) (r : Step) :
  (forall (window : HWND) (r0 : Step), startup world = Ret (window, r0) -> Inv (st r0)) ->
  program world msgs = Ret r -> Inv (st r).
Proof.
  intros Hinit Hp.
  destruct (program_inv world msgs r Hp) as (window & r0 & rd & Hs & Hd & Est & _).
  rewrite Est. apply (dispatch_invariant window msgs (st r0) (polls r0) rd); [| exact Hd].
  exact (Hinit window r0 Hs).
Qed.

End Invariant.

(** What each handler does to the variables. *)
Lemma wndProc_state (world : World) (window : HWND) (s : State) (fg : list HWND)
    (msg : Msg) (w l : Z) (r : Step) :
  wndProc world window s fg msg w l = Ret r ->
  match msg with
  | WM_MOUSEMOVE => st r = st (onMouseMove window s fg l)
  | WM_LBUTTONDOWN => st r = st (onLButtonDown s fg l)
  | WM_KEYDOWN => st r = st (onKeyDown window s fg w)
  | _ => st r = s
  end.
Proof.
  destruct msg; cbn [wndProc]; intros E; try (injection E as <-; reflexivity).
  - unfold onLButtonUp in E.
    destruct (selecting s); [| injection E as <-; reflexivity].
    destruct (awaitForeground window fg) as [[h fg'] |]; [| discriminate E].
    destruct ((h =? 0) || (h =? GetDesktopWindow world));
      [injection E as <-; reflexivity |].
    destruct (MonitorFromWindow world h =? 0); [injection E as <-; reflexivity |].
    destruct (resolve (info s) (tiles s) (selection s)) as [[[[x y] cx] cy] | |];
      cbn [bind] in E; try discriminate E.
    injection E as <-. reflexivity.
  - destruct (paint window (info s) (tiles s) (selection s)) as [a | |];
      cbn [bind] in E; try discriminate E.
    injection E as <-. reflexivity.
Qed.

Lemma onMouseMove_selection (window : HWND) (s : State) (fg : list HWND) (l : Z) :
  selection (st (onMouseMove window s fg l)) =
  if selecting s
  then {| Left := Z.min (Left (selection s)) (pointerX l);
          Top := Z.min (Top (selection s)) (pointerY l);
          Right := Z.max (Right (selection s)) (pointerX l);
          Bottom := Z.max (Bottom (selection s)) (pointerY l) |}
  else selection s.
Proof.
  unfold onMouseMove. destruct (selecting s); [| reflexivity].
  cbn [st selection]. rewrite !min_spec, !max_spec. reflexivity.
Qed.

Lemma onMouseMove_normalized (window : HWND) (s : State) (fg : list HWND) (l : Z) :
  normalized (selection s) -> normalized (selection (st (onMouseMove window s fg l))).
Proof.
  intros [Hx Hy]. rewrite onMouseMove_selection.
  destruct (selecting s); unfold normalized; cbn [Left Top Right Bottom]; lia.
Qed.

Lemma onLButtonDown_normalized (s : State) (fg : list HWND) (l : Z) :
  normalized (selection (st (onLButtonDown s fg l))).
Proof. unfold normalized. cbn. lia. Qed.

Lemma wndProc_normalized (world : World) (window : HWND) (s : State) (fg : list HWND)
    (msg : Msg) (w l : Z) (r : Step) :
  normalized (selection s) ->
  wndProc world window s fg msg w l = Ret r -> normalized (selection (st r)).
Proof.
  intros Hs E. pose proof (wndProc_state world window s fg msg w l r E) as S.
  destruct msg; rewrite S; try exact Hs.
  - apply onMouseMove_normalized. exact Hs.
  - apply onLButtonDown_normalized.
  - unfold onKeyDown.
    destruct (negb (selecting s) && (50 <=? w) && (w <=? 57)); [exact Hs |].
    destruct (w =? VK_ESCAPE); exact Hs.
Qed.

(** C7: after every run of the program the selection rectangle is
    normalized ([left <= right], [top <= bottom]).  From such a state,
    pointer-down at P makes it the degenerate rectangle {P, P}; pointer-move
    to P makes it the bounding box of the rectangle and P while a selection
    is in progress and leaves it alone otherwise, so it stays normalized and
    never shrinks; and the redraw request is issued by pointer-move exactly
    when the rectangle changed. *)
Theorem C7_selection_normalized
    (world : World) (msgs : list (Msg * Z * Z)) (r : Step)
    (window : HWND) (fg : list HWND) (l : Z) :
  program world msgs = Ret r ->
  let s := st r in
  let down := onLButtonDown s fg l in
  let move := onMouseMove window s fg l in
  normalized (selection s) /\
  selection (st down) = mkRECT (pointerX l) (pointerY l) (pointerX l) (pointerY l) /\
  normalized (selection (st down)) /\
  selection (st move) =
    (if selecting s
     then {| Left := Z.min (Left (selection s)) (pointerX l);
             Top := Z.min (Top (selection s)) (pointerY l);
             Right := Z.max (Right (selection s)) (pointerX l);
             Bottom := Z.max (Bottom (selection s)) (pointerY l) |}
     else selection s) /\
  normalized (selection (st move)) /\
  (Left (selection (st move)) <= Left (selection s) /\
   Top (selection (st move)) <= Top (selection s) /\
   Right (selection s) <= Right (selection (st move)) /\
   Bottom (selection s) <= Bottom (selection (st move))) /\
  (In (InvalidateRect window) (acts move) <-> selection (st move) <> selection s) /\
  (acts move = [InvalidateRect window] \/ acts move = []).
Proof.
  intros Hp. cbv zeta.
  assert (Hs : normalized (selection (st r))).
  { apply (program_invariant (fun s => normalized (selection s)) world) with (msgs := msgs).
    - intros window0 s0 fg0 msg w0 l0 r0. apply wndProc_normalized.
    - intros window0 r0 H0.
      destruct (startup_inv world window0 r0 H0) as (n & w0 & mi & _ & _ & _ & _ & _ & E).
      rewrite E. unfold normalized. cbn. lia.
    - exact Hp. }
  split; [exact Hs |].
  split; [reflexivity |].
  split; [apply onLButtonDown_normalized |].
  split; [apply onMouseMove_selection |].
  split; [apply onMouseMove_normalized; exact Hs |].
  split.
  { rewrite onMouseMove_selection.
    destruct (selecting (st r)); cbn [Left Top Right Bottom]; lia. }
  unfold onMouseMove. destruct (selecting (st r)).
  - cbn [st acts selection].
    set (new := {| Left := min (Left (selection (st r))) (pointerX l);
                   Top := min (Top (selection (st r))) (pointerY l);
                   Right := max (Right (selection (st r))) (pointerX l);
                   Bottom := max (Bottom (selection (st r))) (pointerY l) |}).
    destruct (RECT_eqb new (selection (st r))) eqn:E; cbn [negb].
    + apply RECT_eqb_eq in E. split; [| right; reflexivity].
      split; [intros [] | intros N; elim N; exact E].
    + split; [| left; reflexivity].
      split; [| intros _; left; reflexivity].
      intros _ N. apply RECT_eqb_eq in N. congruence.
  - cbn [st acts]. split; [| right; reflexivity].
    split; [intros [] | intros N; elim N; reflexivity].
Qed.

Lemma C7_selection_normalized_witness :
  normalized (mkRECT 1000 600 1100 700) /\
  In (InvalidateRect 1)
     (acts (onMouseMove 1 (mkState (monitor1921 0) true (mkRECT 1000 600 1100 700) 3)
                        [] (MAKELPARAM 1200 650))).
Proof.
  assert (Hp : program twoMonitors dragMsgs =
               Ret (mkStep (mkState (monitor1921 0) true (mkRECT 1000 600 1100 700) 3) []
                      [ShowWindow 1 SW_MINIMIZE; ShowWindow 1 SW_RESTORE;
                       SetWindowPos 1 0 0 1921 1080; InvalidateRect 1;
                       ShowWindow 1 SW_MINIMIZE; ShowWindow 7 SW_RESTORE;
                       SetWindowPos 7 640 360 640 360; WriteFile [x03]; CloseWindow 1])).
  { vm_compute. reflexivity. }
  destruct (C7_selection_normalized twoMonitors dragMsgs _ 1 [] (MAKELPARAM 1200 650) Hp)
    as (N & _ & _ & _ & _ & _ & I & _).
  split; [exact N |].
  apply I. vm_compute. discriminate.
Defined.

Lemma readTiles_range (read : option (list byte)) (n : Z) :
  readTiles read = Ret n -> 2 <= n <= 9.
Proof.
  unfold readTiles. destruct read as [[| b rest] |]; intros E; try discriminate E;
    injection E as <-; [| lia].
  rewrite min_spec, max_spec. lia.
Qed.

Lemma tile_key_value (w : Z) : 50 <= w <= 57 -> to_int (to_uintptr (w - 48)) = w - 48.
Proof.
  intros Hw. unfold to_uintptr, wrap_unsigned.
  rewrite Z.mod_small by lia.
  apply to_int_id. unfold int_range. lia.
Qed.

Lemma wndProc_tiles (world : World) (window : HWND) (s : State) (fg : list HWND)
    (msg : Msg) (w l : Z) (r : Step) :
  wndProc world window s fg msg w l = Ret r ->
  tiles (st r) =
  match msg with
  | WM_KEYDOWN =>
    if negb (selecting s) && (50 <=? w) && (w <=? 57) then w - 48 else tiles s
  | _ => tiles s
  end.
Proof.
  intros E. pose proof (wndProc_state world window s fg msg w l r E) as S.
  destruct msg; rewrite S; try reflexivity.
  - unfold onMouseMove. destruct (selecting s); reflexivity.
  - unfold onKeyDown.
    destruct (negb (selecting s) && (50 <=? w) && (w <=? 57)) eqn:K.
    + cbn [st tiles]. apply tile_key_value.
      apply andb_true_iff in K as [K K2]. apply andb_true_iff in K as [_ K1]. lia.
    + destruct (w =? VK_ESCAPE); reflexivity.
Qed.

Lemma wndProc_tiles_range (world : World) (window : HWND) (s : State) (fg : list HWND)
    (msg : Msg) (w l : Z) (r : Step) :
  2 <= tiles s <= 9 ->
  wndProc world window s fg msg w l = Ret r -> 2 <= tiles (st r) <= 9.
Proof.
  intros Hs E. rewrite (wndProc_tiles world window s fg msg w l r E).
  destruct msg; try exact Hs.
  destruct (negb (selecting s) && (50 <=? w) && (w <=? 57)) eqn:K; [| exact Hs].
  apply andb_true_iff in K as [K K2]. apply andb_true_iff in K as [_ K1]. lia.
Qed.

(** C8: after every run of the program the tile count is in [2,9].  It
    starts at 2 and stays 2 when the settings file cannot be read; the first
    byte of a settings file is clamped to [2,9]; a message changes it only
    when it is a key-down of a key '2' to '9' while no selection is in
    progress, and then to the digit of the key; every other message leaves it
    as it is. *)
Theorem C8_tile_count_range
    (world : World) (msgs : list (Msg * Z * Z)) (r : Step)
    (window : HWND) (fg : list HWND) (msg : Msg) (w l : Z) :
  program world msgs = Ret r ->
  let s := st r in
  2 <= tiles s <= 9 /\
  readTiles None = Ret 2 /\
  (forall (b : byte) (rest : list byte),
      readTiles (Some (b :: rest)) = Ret (Z.min 9 (Z.max 2 (byte_val b)))) /\
  (forall r' : Step,
      wndProc world window s fg msg w l = Ret r' ->
      2 <= tiles (st r') <= 9 /\
      tiles (st r') =
      match msg with
      | WM_KEYDOWN =>
        if negb (selecting s) && (50 <=? w) && (w <=? 57) then w - 48 else tiles s
      | _ => tiles s
      end).
Proof.
  intros Hp. cbv zeta.
  assert (Hs : 2 <= tiles (st r) <= 9).
  { apply (program_invariant (fun s => 2 <= tiles s <= 9) world) with (msgs := msgs).
    - intros window0 s0 fg0 msg0 w0 l0 r0. apply wndProc_tiles_range.
    - intros window0 r0 H0.
      destruct (startup_inv world window0 r0 H0) as (n & w0 & mi & _ & R & _ & _ & _ & E).
      rewrite E. cbn [tiles]. exact (readTiles_range _ _ R).
    - exact Hp. }
  split; [exact Hs |].
  split; [reflexivity |].
  split.
  { intros b rest. cbn [readTiles]. rewrite min_spec, max_spec. reflexivity. }
  intros r' E. split.
  - exact (wndProc_tiles_range world window (st r) fg msg w l r' Hs E).
  - exact (wndProc_tiles world window (st r) fg msg w l r' E).
Qed.

Lemma C8_tile_count_range_witness :
  2 <= tiles dragging <= 9 /\
  tiles (st (onKeyDown 1 dragging [] 53)) = 3.
Proof.
  assert (Hp : program twoMonitors dragMsgs =
               Ret (mkStep dragging []
                      [ShowWindow 1 SW_MINIMIZE; ShowWindow 1 SW_RESTORE;
                       SetWindowPos 1 0 0 1921 1080; InvalidateRect 1;
                       ShowWindow 1 SW_MINIMIZE; ShowWindow 7 SW_RESTORE;
                       SetWindowPos 7 640 360 640 360; WriteFile [x03]; CloseWindow 1])).
  { vm_compute. reflexivity. }
  destruct (C8_tile_count_range twoMonitors dragMsgs _ 1 [] WM_KEYDOWN 53 0 Hp)
    as (R & _ & _ & K).
  split; [exact R |].
  destruct (K (onKeyDown 1 dragging [] 53) ltac:(reflexivity)) as [_ E].
  exact E.
Defined.

(** * The pointer-up handler and the activated window *)

(** C9: when, after pointer-up, the first foreground window that is not the
    overlay is no window at all (0), the desktop window, or a window without
    a monitor, the handler minimizes and closes the overlay and does nothing
    else: it issues no [SetWindowPos], restores no window, writes no
    settings and leaves the variables as they are. *)
Theorem C9_abort_without_geometry
    (world : World) (window : HWND) (s : State) (fg fg' : list HWND) (w wp lp : Z) :
  selecting s = true ->
  awaitForeground window fg = Some (w, fg') ->
  w = 0 \/ w = GetDesktopWindow world \/ MonitorFromWindow world w = 0 ->
  exists r : Step,
    wndProc world window s fg WM_LBUTTONUP wp lp = Ret r /\
    st r = s /\
    acts r = [ShowWindow window SW_MINIMIZE; CloseWindow window] /\
    In (CloseWindow window) (acts r) /\
    (forall (h : HWND) (x y cx cy : Z), ~ In (SetWindowPos h x y cx cy) (acts r)).
Proof.
  intros Hsel Hfg Hw.
  exists (mkStep s fg' [ShowWindow window SW_MINIMIZE; CloseWindow window]).
  cbn [wndProc st acts]. unfold onLButtonUp. rewrite Hsel, Hfg.
  split.
  - destruct ((w =? 0) || (w =? GetDesktopWindow world)) eqn:D; [reflexivity |].
    apply orb_false_iff in D as [D0 D1].
    apply Z.eqb_neq in D0. apply Z.eqb_neq in D1.
    destruct Hw as [-> | [-> | Hm]]; try congruence.
    rewrite Hm. reflexivity.
  - split; [reflexivity |]. split; [reflexivity |].
    split; [right; left; reflexivity |].
    intros h x y cx cy [E | [E | []]]; discriminate E.
Qed.

Lemma C9_abort_without_geometry_witness :
  exists r : Step,
    wndProc twoMonitors 1 dragging [1; 99; 7] WM_LBUTTONUP 0 0 = Ret r /\
    st r = dragging /\
    acts r = [ShowWindow 1 SW_MINIMIZE; CloseWindow 1] /\
    In (CloseWindow 1) (acts r) /\
    (forall (h : HWND) (x y cx cy : Z), ~ In (SetWindowPos h x y cx cy) (acts r)).
Proof.
  apply (C9_abort_without_geometry twoMonitors 1 dragging [1; 99; 7] [7] 99 0 0).
  - reflexivity.
  - reflexivity.
  - right. left. reflexivity.
Defined.

(** C10: at start-up, once the overlay window exists, a settings file that
    was read and holds at least one byte sets the tile count to
    [min(9, max(2, data[0]))]; a settings file that was read and is empty
    makes the program panic, since only the read error is tested before
    [data[0]] is taken; a read error leaves the tile count at 2. *)
Theorem C10_settings_first_byte (world : World) (window : HWND) :
  newWindow world = Some window ->
  match ReadFile world with
  | Some [] => readTiles (ReadFile world) = Panic /\ startup world = Panic
  | Some (b :: _) =>
    readTiles (ReadFile world) = Ret (Z.min 9 (Z.max 2 (byte_val b))) /\
    (forall (h : HWND) (r0 : Step),
        startup world = Ret (h, r0) -> tiles (st r0) = Z.min 9 (Z.max 2 (byte_val b)))
  | None =>
    readTiles (ReadFile world) = Ret 2 /\
    (forall (h : HWND) (r0 : Step), startup world = Ret (h, r0) -> tiles (st r0) = 2)
  end.
Proof.
  intros Hw.
  destruct (ReadFile world) as [[| b rest] |] eqn:R.
  - split; [reflexivity |]. unfold startup. rewrite Hw, R. reflexivity.
  - assert (E : readTiles (Some (b :: rest)) = Ret (Z.min 9 (Z.max 2 (byte_val b)))).
    { cbn [readTiles]. rewrite min_spec, max_spec. reflexivity. }
    split; [exact E |].
    intros h r0 H0.
    destruct (startup_inv world h r0 H0) as (n & w0 & mi & _ & Rn & _ & _ & _ & Es).
    rewrite Es. cbn [tiles]. rewrite R, E in Rn. injection Rn as <-. reflexivity.
  - split; [reflexivity |].
    intros h r0 H0.
    destruct (startup_inv world h r0 H0) as (n & w0 & mi & _ & Rn & _ & _ & _ & Es).
    rewrite Es. cbn [tiles]. rewrite R in Rn. injection Rn as <-. reflexivity.
Qed.

Lemma C10_settings_first_byte_witness :
  readTiles (ReadFile emptySettings) = Panic /\ startup emptySettings = Panic.
Proof.
  exact (C10_settings_first_byte emptySettings 1 ltac:(reflexivity)).
Defined.

Lemma wndProc_info (world : World) (window : HWND) (s : State) (fg : list HWND)
    (msg : Msg) (w l : Z) (r : Step) :
  wndProc world window s fg msg w l = Ret r -> info (st r) = info s.
Proof.
  intros E. pose proof (wndProc_state world window s fg msg w l r E) as S.
  destruct msg; rewrite S; try reflexivity.
  - unfold onMouseMove. destruct (selecting s); reflexivity.
  - unfold onKeyDown.
    destruct (negb (selecting s) && (50 <=? w) && (w <=? 57)); [reflexivity |].
    destruct (w =? VK_ESCAPE); reflexivity.
Qed.

(** The only [SetWindowPos] of the pointer-up handler: on the activated
    window, with the geometry resolved from the variables. *)
Lemma onLButtonUp_SetWindowPos (world : World) (window : HWND) (s : State)
    (fg : list HWND) (r : Step) (W : HWND) (x y cx cy : Z) :
  onLButtonUp world window s fg = Ret r ->
  In (SetWindowPos W x y cx cy) (acts r) ->
  awaitForeground window fg = Some (W, polls r) /\
  W <> 0 /\ W <> GetDesktopWindow world /\ MonitorFromWindow world W <> 0 /\
  resolve (info s) (tiles s) (selection s) = Ret (x, y, cx, cy).
Proof.
  unfold onLButtonUp. intros E Hin.
  destruct (selecting s); [| injection E as <-; destruct Hin].
  destruct (awaitForeground window fg) as [[h fg'] |]; [| discriminate E].
  destruct ((h =? 0) || (h =? GetDesktopWindow world)) eqn:D.
  { injection E as <-. destruct Hin as [X | [X | []]]; discriminate X. }
  destruct (Z.eqb_spec (MonitorFromWindow world h) 0) as [| Hm].
  { injection E as <-. destruct Hin as [X | [X | []]]; discriminate X. }
  destruct (resolve (info s) (tiles s) (selection s)) as [[[[gx gy] gcx] gcy] | |];
    cbn [bind] in E; try discriminate E.
  injection E as <-. cbn [acts polls] in *.
  destruct Hin as [X | [X | [X | [X | [X | []]]]]]; try discriminate X.
  injection X as -> -> -> -> ->.
  apply orb_false_iff in D as [D0 D1].
  apply Z.eqb_neq in D0. apply Z.eqb_neq in D1. auto.
Qed.

(** C1, as the claim words it, fails: on a desktop with two monitors, the
    overlay starts on the first monitor (work area at x = 0) and the window
    activated after the release is on the second (work area at x = 1921);
    the geometry applied to that window, (640, 360, 640, 360), is not the
    one resolved against the work area of its own monitor,
    (2561, 360, 640, 360). *)
Lemma C1_counterexample :
  ~ (forall (world : World) (msgs : list (Msg * Z * Z)) (r0 r1 : Step)
            (window W : HWND) (wp lp x y cx cy : Z) (mi : MONITORINFO),
        program world msgs = Ret r0 ->
        newWindow world = Some window ->
        wndProc world window (st r0) (polls r0) WM_LBUTTONUP wp lp = Ret r1 ->
        In (SetWindowPos W x y cx cy) (acts r1) ->
        GetMonitorInfo world (MonitorFromWindow world W) = Some mi ->
        resolve mi (tiles (st r0)) (selection (st r0)) = Ret (x, y, cx, cy)).
Proof.
  intros claim.
  specialize (claim twoMonitors (firstn 2 dragMsgs)
                (mkStep dragging [1; 1; 7]
                   [ShowWindow 1 SW_MINIMIZE; ShowWindow 1 SW_RESTORE;
                    SetWindowPos 1 0 0 1921 1080; InvalidateRect 1])
                (mkStep dragging []
                   [ShowWindow 1 SW_MINIMIZE; ShowWindow 7 SW_RESTORE;
                    SetWindowPos 7 640 360 640 360; WriteFile [x03]; CloseWindow 1])
                1 7 0 0 640 360 640 360 (monitor1921 1921)).
  assert (E : resolve (monitor1921 1921) (tiles dragging) (selection dragging)
              = Ret (2561, 360, 640, 360)) by (vm_compute; reflexivity).
  cbn [st polls acts] in claim. rewrite E in claim.
  specialize (claim ltac:(vm_compute; reflexivity) ltac:(reflexivity)
                    ltac:(vm_compute; reflexivity)
                    ltac:(right; right; left; reflexivity)
                    ltac:(reflexivity)).
  discriminate claim.
Qed.

(** C1 (amended): after every run of the program, when the pointer-up
    handler applies a geometry to the activated window W, the work area used
    to resolve it is the one captured at start-up, that of the monitor of the
    window that was in the foreground then; the monitor of W is only required
    to exist. *)
Theorem C1_startup_work_area
    (world : World) (msgs : list (Msg * Z * Z)) (r0 r1 : Step)
    (window W : HWND) (wp lp x y cx cy : Z) :
  program world msgs = Ret r0 ->
  newWindow world = Some window ->
  wndProc world window (st r0) (polls r0) WM_LBUTTONUP wp lp = Ret r1 ->
  In (SetWindowPos W x y cx cy) (acts r1) ->
  exists (w0 : HWND) (fg0 : list HWND) (mi0 : MONITORINFO),
    awaitForeground window (foreground world) = Some (w0, fg0) /\
    GetMonitorInfo world (MonitorFromWindow world w0) = Some mi0 /\
    info (st r0) = mi0 /\
    resolve mi0 (tiles (st r0)) (selection (st r0)) = Ret (x, y, cx, cy) /\
    MonitorFromWindow world W <> 0.
Proof.
  intros Hp Hw Hup Hin.
  destruct (program_inv world msgs r0 Hp) as (h & rs & rd & Hs & Hd & Est & _).
  destruct (startup_inv world h rs Hs) as (n & w0 & mi0 & Hh & _ & Hfg & _ & Hmi & Es).
  assert (h = window) as -> by congruence.
  assert (Hinfo : info (st r0) = mi0).
  { rewrite Est.
    refine (dispatch_invariant (fun s => info s = mi0) world _ window msgs
              (st rs) (polls rs) rd _ Hd).
    - intros window0 s0 fg0 msg w l r Hi E.
      rewrite (wndProc_info world window0 s0 fg0 msg w l r E). exact Hi.
    - rewrite Es. reflexivity. }
  cbn [wndProc] in Hup.
  destruct (onLButtonUp_SetWindowPos world window (st r0) (polls r0) r1 W x y cx cy Hup Hin)
    as (_ & _ & _ & Hm & Hres).
  exists w0, (polls rs), mi0.
  rewrite Hinfo in Hres. auto.
Qed.

Lemma C1_startup_work_area_witness :
  exists (w0 : HWND) (fg0 : list HWND) (mi0 : MONITORINFO),
    awaitForeground 1 (foreground twoMonitors) = Some (w0, fg0) /\
    GetMonitorInfo twoMonitors (MonitorFromWindow twoMonitors w0) = Some mi0 /\
    info dragging = mi0 /\
    resolve mi0 (tiles dragging) (selection dragging) = Ret (640, 360, 640, 360) /\
    MonitorFromWindow twoMonitors 7 <> 0.
Proof.
  apply (C1_startup_work_area twoMonitors (firstn 2 dragMsgs)
           (mkStep dragging [1; 1; 7]
              [ShowWindow 1 SW_MINIMIZE; ShowWindow 1 SW_RESTORE;
               SetWindowPos 1 0 0 1921 1080; InvalidateRect 1])
           (mkStep dragging []
              [ShowWindow 1 SW_MINIMIZE; ShowWindow 7 SW_RESTORE;
               SetWindowPos 7 640 360 640 360; WriteFile [x03]; CloseWindow 1])
           1 7 0 0 640 360 640 360).
  - vm_compute. reflexivity.
  - reflexivity.
  - vm_compute. reflexivity.
  - right. right. left. reflexivity.
Defined.

(** * Further properties of the program *)

(** ** The polling loop *)

(** X1: the wait for another foreground window skips exactly the leading
    answers that are the overlay itself, returns the first other answer with
    the answers after it, and has no result exactly when every answer is the
    overlay. *)
Theorem awaitForeground_spec (window : HWND) (fg : list HWND) :
  (forall (w : HWND) (rest : list HWND),
      awaitForeground window fg = Some (w, rest) <->
      w <> window /\ exists k : nat, fg = repeat window k ++ w :: rest) /\
  (awaitForeground window fg = None <-> fg = repeat window (length fg)).
Proof.
  induction fg as [| a fg [IHs IHn]].
  - split.
    + intros w rest. split; [discriminate |].
      intros [_ [k E]]. destruct k; discriminate E.
    + split; reflexivity.
  - cbn [awaitForeground]. destruct (Z.eqb_spec a window) as [-> | Hne].
    + split.
      * intros w rest. rewrite IHs. split.
        -- intros [Hw [k E]]. split; [exact Hw |]. exists (S k). cbn [repeat app]. congruence.
        -- intros [Hw [k E]]. split; [exact Hw |].
           destruct k as [| k]; cbn [repeat app] in E.
           ++ injection E as E1 _. congruence.
           ++ injection E as E. exists k. exact E.
      * rewrite IHn. cbn [length repeat]. split; [congruence |].
        intros E. injection E as E. exact E.
    + split.
      * intros w rest. split.
        -- intros E. injection E as <- <-. split; [exact Hne |]. exists 0%nat. reflexivity.
        -- intros [Hw [k E]]. destruct k as [| k]; cbn [repeat app] in E.
           ++ injection E as <- <-. reflexivity.
           ++ injection E as E1 _. congruence.
      * split; [discriminate |]. cbn [length repeat]. intros E.
        injection E as E1 _. congruence.
Qed.

(** ** Pointer positions and the selection *)

Lemma to_int16_in_range (z : Z) : int16_range (to_int16 z).
Proof.
  unfold int16_range, to_int16, wrap_signed.
  pose proof (Z.mod_pos_bound (z + 2 ^ (16 - 1)) (2 ^ 16) ltac:(lia)).
  change (2 ^ (16 - 1)) with 32768 in *.
  change (2 ^ 16) with 65536 in *. lia.
Qed.

Lemma pointerX_in_range (l : Z) : int16_range (pointerX l).
Proof. apply to_int16_in_range. Qed.

Lemma pointerY_in_range (l : Z) : int16_range (pointerY l).
Proof. apply to_int16_in_range. Qed.

Lemma wndProc_selection_int16 (world : World) (window : HWND) (s : State)
    (fg : list HWND) (msg : Msg) (w l : Z) (r : Step) :
  (int16_range (Left (selection s)) /\ int16_range (Top (selection s)) /\
   int16_range (Right (selection s)) /\ int16_range (Bottom (selection s))) ->
  wndProc world window s fg msg w l = Ret r ->
  int16_range (Left (selection (st r))) /\ int16_range (Top (selection (st r))) /\
  int16_range (Right (selection (st r))) /\ int16_range (Bottom (selection (st r))).
Proof.
  intros Hs E. pose proof (wndProc_state world window s fg msg w l r E) as S.
  pose proof (pointerX_in_range l) as PX. pose proof (pointerY_in_range l) as PY.
  destruct msg; rewrite S; try exact Hs.
  - rewrite onMouseMove_selection. destruct (selecting s); [| exact Hs].
    cbn [Left Top Right Bottom]. unfold int16_range in *. lia.
  - cbn. auto.
  - unfold onKeyDown.
    destruct (negb (selecting s) && (50 <=? w) && (w <=? 57)); [exact Hs |].
    destruct (w =? VK_ESCAPE); exact Hs.
Qed.

(** X2: after every run of the program each coordinate of the selection is
    a 16-bit signed value, whatever message parameters were delivered; in
    particular the selection is a well-formed [RECT]. *)
Theorem selection_int16 (world : World) (msgs : list (Msg * Z * Z)) (r : Step) :
  program world msgs = Ret r ->
  (int16_range (Left (selection (st r))) /\ int16_range (Top (selection (st r))) /\
   int16_range (Right (selection (st r))) /\ int16_range (Bottom (selection (st r)))) /\
  RECT_wf (selection (st r)).
Proof.
  intros Hp.
  assert (H : int16_range (Left (selection (st r))) /\
              int16_range (Top (selection (st r))) /\
              int16_range (Right (selection (st r))) /\
              int16_range (Bottom (selection (st r)))).
  { apply (program_invariant
             (fun s => int16_range (Left (selection s)) /\ int16_range (Top (selection s)) /\
                       int16_range (Right (selection s)) /\ int16_range (Bottom (selection s)))
             world) with (msgs := msgs).
    - intros window s fg msg w l r'. apply wndProc_selection_int16.
    - intros window r0 H0.
      destruct (startup_inv world window r0 H0) as (n & w0 & mi & _ & _ & _ & _ & _ & E).
      rewrite E. cbn. unfold int16_range. lia.
    - exact Hp. }
  split; [exact H |].
  unfold RECT_wf, int32_range, int16_range in *. lia.
Qed.

Lemma selection_int16_witness :
  int16_range (Left (selection dragging)) /\ RECT_wf (selection dragging).
Proof.
  assert (Hp : program twoMonitors (firstn 2 dragMsgs) =
               Ret (mkStep dragging [1; 1; 7]
                      [ShowWindow 1 SW_MINIMIZE; ShowWindow 1 SW_RESTORE;
                       SetWindowPos 1 0 0 1921 1080; InvalidateRect 1])).
  { vm_compute. reflexivity. }
  destruct (selection_int16 twoMonitors (firstn 2 dragMsgs) _ Hp) as [[L _] W].
  split; [exact L | exact W].
Defined.

(** ** A selection in progress *)

Lemma wndProc_selecting (world : World) (window : HWND) (s : State)
    (fg : list HWND) (msg : Msg) (w l : Z) (r : Step) :
  selecting s = true ->
  wndProc world window s fg msg w l = Ret r ->
  selecting (st r) = true /\ tiles (st r) = tiles s.
Proof.
  intros Hs E. split.
  - pose proof (wndProc_state world window s fg msg w l r E) as S.
    destruct msg; rewrite S; try exact Hs.
    + unfold onMouseMove. rewrite Hs. reflexivity.
    + reflexivity.
    + unfold onKeyDown. rewrite Hs. cbn [negb andb].
      destruct (w =? VK_ESCAPE); exact Hs.
  - rewrite (wndProc_tiles world window s fg msg w l r E).
    destruct msg; try reflexivity. rewrite Hs. reflexivity.
Qed.

(** X3: once a selection has begun it never ends and the tile count is
    frozen: from a state in which a selection is in progress, no sequence of
    messages (tile keys included) changes the tile count or the captured
    work area, and the selection stays in progress. *)
Theorem selecting_freezes_tiles
    (world : World) (window : HWND) (s : State) (fg : list HWND)
    (msgs : list (Msg * Z * Z)) (r : Step) :
  selecting s = true ->
  dispatch world window s fg msgs = Ret r ->
  selecting (st r) = true /\ tiles (st r) = tiles s /\ info (st r) = info s.
Proof.
  intros Hs Hd.
  assert (H : selecting (st r) = true /\ tiles (st r) = tiles s /\ info (st r) = info s).
  { refine (dispatch_invariant
              (fun s' => selecting s' = true /\ tiles s' = tiles s /\ info s' = info s)
              world _ window msgs s fg r _ Hd).
    - intros window0 s0 fg0 msg w l r0 (A & B & C) E.
      destruct (wndProc_selecting world window0 s0 fg0 msg w l r0 A E) as [A' B'].
      rewrite (wndProc_info world window0 s0 fg0 msg w l r0 E).
      split; [exact A' |]. split; congruence.
    - auto. }
  exact H.
Qed.

Lemma selecting_freezes_tiles_witness :
  tiles (st (onKeyDown 1 dragging [] 57)) = 3.
Proof.
  destruct (selecting_freezes_tiles twoMonitors 1 dragging [] [(WM_KEYDOWN, 57, 0)]
              (mkStep (st (onKeyDown 1 dragging [] 57)) [] [])
              ltac:(reflexivity) ltac:(vm_compute; reflexivity)) as (_ & T & _).
  exact T.
Defined.

Lemma boundingBoxOf_extend (sel : RECT) (pts : list (Z * Z)) (x y : Z) :
  boundingBoxOf sel pts ->
  boundingBoxOf {| Left := Z.min (Left sel) x; Top := Z.min (Top sel) y;
                   Right := Z.max (Right sel) x; Bottom := Z.max (Bottom sel) y |}
                (pts ++ [(x, y)]).
Proof.
  intros (C & (pl & Il & El) & (pr & Ir & Er) & (pt & It & Et) & (pb & Ib & Eb)).
  unfold boundingBoxOf. cbn [Left Top Right Bottom].
  assert (Hnew : In (x, y) (pts ++ [(x, y)])) by (apply in_or_app; right; left; reflexivity).
  assert (Hold : forall p, In p pts -> In p (pts ++ [(x, y)]))
    by (intros p Hp; apply in_or_app; left; exact Hp).
  split.
  { intros p Hp. apply in_app_or in Hp as [Hp | [<- | []]].
    - specialize (C p Hp). lia.
    - cbn [fst snd]. lia. }
  split.
  { destruct (Z_le_gt_dec (Left sel) x).
    - exists pl. split; [auto | lia].
    - exists (x, y). split; [auto | cbn [fst]; lia]. }
  split.
  { destruct (Z_le_gt_dec x (Right sel)).
    - exists pr. split; [auto | lia].
    - exists (x, y). split; [auto | cbn [fst]; lia]. }
  split.
  { destruct (Z_le_gt_dec (Top sel) y).
    - exists pt. split; [auto | lia].
    - exists (x, y). split; [auto | cbn [snd]; lia]. }
  { destruct (Z_le_gt_dec y (Bottom sel)).
    - exists pb. split; [auto | lia].
    - exists (x, y). split; [auto | cbn [snd]; lia]. }
Qed.

Lemma dispatch_moves (world : World) (window : HWND) (moves : list (Z * Z)) :
  forall (s : State) (fg : list HWND) (pts : list (Z * Z)),
    selecting s = true ->
    boundingBoxOf (selection s) pts ->
    exists r : Step,
      dispatch world window s fg (moveMsgs moves) = Ret r /\
      selecting (st r) = true /\ tiles (st r) = tiles s /\ polls r = fg /\
      boundingBoxOf (selection (st r)) (pts ++ pointsOf (map snd moves)).
Proof.
  induction moves as [| [w l] moves IH]; intros s fg pts Hs Hb.
  - exists (mkStep s fg []). cbn. rewrite app_nil_r. auto.
  - cbn [moveMsgs map dispatch fst snd wndProc bind].
    set (s1 := st (onMouseMove window s fg l)).
    assert (Hs1 : selecting s1 = true).
    { unfold s1, onMouseMove. rewrite Hs. reflexivity. }
    assert (Ht1 : tiles s1 = tiles s).
    { unfold s1, onMouseMove. rewrite Hs. reflexivity. }
    assert (Hp1 : polls (onMouseMove window s fg l) = fg).
    { unfold onMouseMove. rewrite Hs. reflexivity. }
    assert (Hb1 : boundingBoxOf (selection s1) (pts ++ [(pointerX l, pointerY l)])).
    { unfold s1. rewrite onMouseMove_selection, Hs.
      apply boundingBoxOf_extend. exact Hb. }
    rewrite Hp1.
    destruct (IH s1 fg (pts ++ [(pointerX l, pointerY l)]) Hs1 Hb1)
      as (r & Hd & Hsel & Ht & Hp & Hbb).
    fold (moveMsgs moves). fold s1. rewrite Hd. cbn [bind].
    eexists. split; [reflexivity |]. cbn [st polls].
    split; [exact Hsel |]. split; [congruence |]. split; [exact Hp |].
    unfold pointsOf in *. cbn [map]. rewrite <- app_assoc in Hbb. exact Hbb.
Qed.

(** X4: a drag accumulates the minimal bounding box of the pointer
    positions.  From any state, a pointer-down followed by any number of
    pointer-moves always returns, leaves a selection in progress, consumes no
    foreground answer, and the selection contains the position of the press
    and of every move, each of its four edges passing through one of
    them. *)
Theorem drag_bounding_box
    (world : World) (window : HWND) (s : State) (fg : list HWND)
    (w0 l0 : Z) (moves : list (Z * Z)) :
  exists r : Step,
    dispatch world window s fg ((WM_LBUTTONDOWN, w0, l0) :: moveMsgs moves) = Ret r /\
    selecting (st r) = true /\ tiles (st r) = tiles s /\ polls r = fg /\
    boundingBoxOf (selection (st r)) (pointsOf (l0 :: map snd moves)).
Proof.
  cbn [dispatch wndProc bind].
  set (s1 := st (onLButtonDown s fg l0)).
  assert (Hb : boundingBoxOf (selection s1) [(pointerX l0, pointerY l0)]).
  { unfold boundingBoxOf. cbn.
    split.
    - intros p [<- | []]. cbn. lia.
    - repeat split; exists (pointerX l0, pointerY l0); split; auto. }
  destruct (dispatch_moves world window moves s1 fg [(pointerX l0, pointerY l0)]
              ltac:(reflexivity) Hb) as (r & Hd & Hsel & Ht & Hp & Hbb).
  change (polls (onLButtonDown s fg l0)) with fg.
  fold s1. rewrite Hd. cbn [bind].
  eexists. split; [reflexivity |]. cbn [st polls acts].
  split; [exact Hsel |]. split; [exact Ht |]. split; [exact Hp |]. exact Hbb.
Qed.

(** ** The resolved geometry and the selection *)

(** One axis of the geometry: the snapped start is at or before the start of
    the selection, the end is beyond its end and within the size. *)
Lemma axis_bounds (size n a b : Z) :
  2 <= n <= 9 -> n <= size -> 0 <= a <= b -> b < size ->
  let tile := size ÷ n in
  let x0 := a ÷ tile * tile in
  let x1 := Z.min size (b ÷ tile * tile + tile) in
  let x2 := if b ÷ tile =? n - 1 then x1 + Z.rem size tile else x1 in
  (0 <= x0 <= a /\ a < x0 + tile) /\ b < x1 /\ x1 <= x2 /\ x2 <= size.
Proof.
  intros Hn Hs Hab Hb. cbv zeta.
  destruct (tile_size_bounds size n ltac:(lia) Hs) as [T Tn].
  set (tile := size ÷ n) in *.
  pose proof (Z.quot_rem' a tile) as Ea.
  pose proof (Z.rem_bound_pos a tile ltac:(lia) ltac:(lia)) as Ra.
  pose proof (Z.quot_rem' b tile) as Eb.
  pose proof (Z.rem_bound_pos b tile ltac:(lia) ltac:(lia)) as Rb.
  pose proof (Z.quot_rem' size tile) as Es.
  pose proof (Z.rem_bound_pos size tile ltac:(lia) ltac:(lia)) as Rs.
  assert (Qs : n <= size ÷ tile) by (apply Z.quot_le_lower_bound; lia).
  assert (Qa : 0 <= a ÷ tile) by (apply Z.quot_pos; lia).
  assert (Qb : 0 <= b ÷ tile) by (apply Z.quot_pos; lia).
  assert (Ma : a ÷ tile * tile = tile * (a ÷ tile)) by ring.
  assert (Mb : b ÷ tile * tile = tile * (b ÷ tile)) by ring.
  rewrite Ma, Mb.
  split; [nia |]. split; [lia |].
  destruct (Z.eqb_spec (b ÷ tile) (n - 1)) as [E | E].
  - split; [lia |]. rewrite E.
    replace (tile * (n - 1) + tile) with (n * tile) by ring.
    rewrite Z.min_r by lia. nia.
  - split; lia.
Qed.

(** X5: for a tile count in [2,9], a work area at least as wide and high
    and a selection inside it, the geometry applied to the activated window
    contains the selection and lies inside the work area: it starts at or
    before the selection, ends beyond it, and does not leave the work area on
    any side.  In particular its width and height are positive. *)
Theorem geometry_covers_selection (mi : MONITORINFO) (n : Z) (sel : RECT) :
  2 <= n <= 9 ->
  n <= Width (RcWork mi) -> n <= Height (RcWork mi) ->
  RECT_wf (RcWork mi) -> insideWorkArea mi sel ->
  exists x y cx cy : Z,
    resolve mi n sel = Ret (x, y, cx, cy) /\
    (Left (RcWork mi) <= x <= Left (RcWork mi) + Left sel /\
     Left (RcWork mi) + Right sel < x + cx /\
     x + cx <= Left (RcWork mi) + Width (RcWork mi)) /\
    (Top (RcWork mi) <= y <= Top (RcWork mi) + Top sel /\
     Top (RcWork mi) + Bottom sel < y + cy /\
     y + cy <= Top (RcWork mi) + Height (RcWork mi)) /\
    0 < cx /\ 0 < cy.
Proof.
  intros Hn HW HH Hwf Hin.
  rewrite (resolve_exact mi n sel)
    by (assumption || lia || exact (insideWorkArea_wf _ _ Hin)).
  destruct Hin as [[Hx Hr] [Hy Hb]].
  pose proof (axis_bounds (Width (RcWork mi)) n (Left sel) (Right sel) Hn HW Hx Hr) as AX.
  pose proof (axis_bounds (Height (RcWork mi)) n (Top sel) (Bottom sel) Hn HH Hy Hb) as AY.
  cbv zeta in AX, AY.
  do 4 eexists. split; [reflexivity |]. lia.
Qed.

Lemma geometry_covers_selection_witness :
  exists x y cx cy : Z,
    resolve (monitor1921 1921) 3 (mkRECT 1000 600 1100 700) = Ret (x, y, cx, cy) /\
    1921 + 1100 < x + cx /\ 0 < cx /\ 0 < cy.
Proof.
  assert (Hyp : insideWorkArea (monitor1921 1921) (mkRECT 1000 600 1100 700)).
  { unfold insideWorkArea. vm_compute. intuition discriminate. }
  assert (Hwf : RECT_wf (RcWork (monitor1921 1921))).
  { unfold RECT_wf, int32_range. vm_compute. intuition discriminate. }
  destruct (geometry_covers_selection (monitor1921 1921) 3 (mkRECT 1000 600 1100 700)
              ltac:(lia) ltac:(vm_compute; discriminate)
              ltac:(vm_compute; discriminate) Hwf Hyp)
    as (x & y & cx & cy & E & (_ & R & _) & _ & PX & PY).
  exists x, y, cx, cy. auto.
Defined.

(** X6: a selection inside the grid of N by N tiles resolves to whole
    tiles: with the selection starting in column [a] and ending in column
    [b], and likewise in rows [c] to [d], the geometry starts at the start of
    tile ([a], [c]) and is [b - a + 1] tiles wide and [d - c + 1] tiles high,
    plus the remainder [width % tileW] (resp. [height % tileH]) when it ends
    in the last column (resp. row). *)
Theorem geometry_whole_tiles (mi : MONITORINFO) (n : Z) (sel : RECT) :
  2 <= n <= 9 ->
  n <= Width (RcWork mi) -> n <= Height (RcWork mi) ->
  RECT_wf (RcWork mi) ->
  let W := Width (RcWork mi) in
  let H := Height (RcWork mi) in
  let tileW := W ÷ n in
  let tileH := H ÷ n in
  0 <= Left sel <= Right sel -> Right sel < n * tileW ->
  0 <= Top sel <= Bottom sel -> Bottom sel < n * tileH ->
  let a := Left sel ÷ tileW in
  let b := Right sel ÷ tileW in
  let c := Top sel ÷ tileH in
  let d := Bottom sel ÷ tileH in
  (0 <= a <= b /\ b < n) /\ (0 <= c <= d /\ d < n) /\
  resolve mi n sel =
  Ret (Left (RcWork mi) + a * tileW, Top (RcWork mi) + c * tileH,
       (b - a + 1) * tileW + (if b =? n - 1 then Z.rem W tileW else 0),
       (d - c + 1) * tileH + (if d =? n - 1 then Z.rem H tileH else 0)).
Proof.
  intros Hn HW HH Hwf. cbv zeta. intros Hx Hr Hy Hb.
  destruct (tile_size_bounds (Width (RcWork mi)) n ltac:(lia) HW) as [TW TWn].
  destruct (tile_size_bounds (Height (RcWork mi)) n ltac:(lia) HH) as [TH THn].
  assert (Hin : insideWorkArea mi sel) by (unfold insideWorkArea; lia).
  rewrite (resolve_exact mi n sel)
    by (assumption || lia || exact (insideWorkArea_wf _ _ Hin)).
  set (W := Width (RcWork mi)) in *. set (H := Height (RcWork mi)) in *.
  set (tw := W ÷ n) in *. set (th := H ÷ n) in *.
  assert (A0 : 0 <= Left sel ÷ tw) by (apply Z.quot_pos; lia).
  assert (C0 : 0 <= Top sel ÷ th) by (apply Z.quot_pos; lia).
  assert (AB : Left sel ÷ tw <= Right sel ÷ tw) by (apply Z.quot_le_mono; lia).
  assert (CD : Top sel ÷ th <= Bottom sel ÷ th) by (apply Z.quot_le_mono; lia).
  assert (BN : Right sel ÷ tw < n) by (apply Z.quot_lt_upper_bound; lia).
  assert (DN : Bottom sel ÷ th < n) by (apply Z.quot_lt_upper_bound; lia).
  split; [lia |]. split; [lia |].
  assert (MX : Z.min W (Right sel ÷ tw * tw + tw) = Right sel ÷ tw * tw + tw) by nia.
  assert (MY : Z.min H (Bottom sel ÷ th * th + th) = Bottom sel ÷ th * th + th) by nia.
  rewrite MX, MY.
  destruct (Right sel ÷ tw =? n - 1); destruct (Bottom sel ÷ th =? n - 1);
    f_equal; f_equal; try ring; f_equal; ring.
Qed.

Lemma geometry_whole_tiles_witness :
  resolve (monitor1921 0) 3 (mkRECT 100 400 1000 1000) = Ret (0, 360, 1280, 720).
Proof.
  assert (Hwf : RECT_wf (RcWork (monitor1921 0))).
  { unfold RECT_wf, int32_range. vm_compute. intuition discriminate. }
  destruct (geometry_whole_tiles (monitor1921 0) 3 (mkRECT 100 400 1000 1000)
              ltac:(lia) ltac:(vm_compute; discriminate)
              ltac:(vm_compute; discriminate) Hwf
              ltac:(cbn; lia) ltac:(vm_compute; reflexivity)
              ltac:(cbn; lia) ltac:(vm_compute; reflexivity)) as (_ & _ & E).
  rewrite E. vm_compute. reflexivity.
Defined.

(** X7: when the work area is at least N*N pixels wide, a selection that
    ends in the last column or beyond it resolves to a geometry whose right
    edge is the right edge of the work area: the remainder of the division is
    absorbed in full.  The same holds for the height and the bottom edge. *)
Theorem geometry_reaches_far_edges (mi : MONITORINFO) (n : Z) (sel : RECT) :
  2 <= n <= 9 ->
  n <= Width (RcWork mi) -> n <= Height (RcWork mi) ->
  RECT_wf (RcWork mi) -> insideWorkArea mi sel ->
  exists x y cx cy : Z,
    resolve mi n sel = Ret (x, y, cx, cy) /\
    (n * n <= Width (RcWork mi) ->
     (n - 1) * (Width (RcWork mi) ÷ n) <= Right sel ->
     x + cx = Left (RcWork mi) + Width (RcWork mi)) /\
    (n * n <= Height (RcWork mi) ->
     (n - 1) * (Height (RcWork mi) ÷ n) <= Bottom sel ->
     y + cy = Top (RcWork mi) + Height (RcWork mi)).
Proof.
  intros Hn HW HH Hwf Hin.
  rewrite (resolve_exact mi n sel)
    by (assumption || lia || exact (insideWorkArea_wf _ _ Hin)).
  destruct Hin as [[Hx Hr] [Hy Hb]].
  do 4 eexists. split; [reflexivity |].
  assert (Axis : forall size b : Z,
             n <= size -> 0 <= b < size -> n * n <= size ->
             (n - 1) * (size ÷ n) <= b ->
             (if b ÷ (size ÷ n) =? n - 1
              then Z.min size (b ÷ (size ÷ n) * (size ÷ n) + size ÷ n)
                   + Z.rem size (size ÷ n)
              else Z.min size (b ÷ (size ÷ n) * (size ÷ n) + size ÷ n)) = size).
  { intros size b Hs Hb0 Hsq Hlast.
    destruct (tile_size_bounds size n ltac:(lia) Hs) as [T Tn].
    pose proof (Z.quot_rem' size n) as En.
    pose proof (Z.rem_bound_pos size n ltac:(lia) ltac:(lia)) as Rn.
    assert (Tbig : n <= size ÷ n) by (apply Z.quot_le_lower_bound; lia).
    set (tile := size ÷ n) in *.
    pose proof (Z.quot_rem' size tile) as Es.
    pose proof (Z.rem_bound_pos size tile ltac:(lia) ltac:(lia)) as Rs.
    assert (Qlo : n <= size ÷ tile) by (apply Z.quot_le_lower_bound; lia).
    assert (Qhi : size ÷ tile < n + 1) by (apply Z.quot_lt_upper_bound; nia).
    assert (Blo : n - 1 <= b ÷ tile) by (apply Z.quot_le_lower_bound; lia).
    destruct (Z.eqb_spec (b ÷ tile) (n - 1)) as [E | E].
    - rewrite E. replace ((n - 1) * tile + tile) with (n * tile) by ring.
      rewrite Z.min_r by lia. nia.
    - apply Z.min_l. nia. }
  split.
  - intros Hsq Hlast.
    rewrite (Axis (Width (RcWork mi)) (Right sel)) by (assumption || lia). lia.
  - intros Hsq Hlast.
    rewrite (Axis (Height (RcWork mi)) (Bottom sel)) by (assumption || lia). lia.
Qed.

Lemma geometry_reaches_far_edges_witness :
  exists x y cx cy : Z,
    resolve (monitor1921 0) 2 (mkRECT 100 100 1920 1079) = Ret (x, y, cx, cy) /\
    x + cx = 0 + 1921 /\ y + cy = 0 + 1080.
Proof.
  assert (Hyp : insideWorkArea (monitor1921 0) (mkRECT 100 100 1920 1079)).
  { unfold insideWorkArea. vm_compute. intuition discriminate. }
  assert (Hwf : RECT_wf (RcWork (monitor1921 0))).
  { unfold RECT_wf, int32_range. vm_compute. intuition discriminate. }
  destruct (geometry_reaches_far_edges (monitor1921 0) 2 (mkRECT 100 100 1920 1079)
              ltac:(lia) ltac:(vm_compute; discriminate)
              ltac:(vm_compute; discriminate) Hwf Hyp)
    as (x & y & cx & cy & E & X & Y).
  exists x, y, cx, cy. split; [exact E | split].
  - apply X; vm_compute; discriminate.
  - apply Y; vm_compute; discriminate.
Defined.

Lemma overlap_true_iff (cl ct cr cb : Z) (sel : RECT) :
  overlap (mkRECT cl ct cr cb) sel = true <->
  cl <= Right sel /\ Left sel < cr /\ ct <= Bottom sel /\ Top sel < cb.
Proof.
  unfold overlap. cbn [Left Top Right Bottom].
  rewrite !andb_true_iff, !Z.geb_le, !Z.ltb_lt. tauto.
Qed.

(** The painted rectangle of a cell of the grid, free of wrap-around. *)
Lemma cellRect_in_grid (W H n x y : Z) :
  2 <= n <= 9 -> n <= W -> n <= H -> int32_range W -> int32_range H ->
  0 <= x < n -> 0 <= y < n ->
  cellRect (W ÷ n) (H ÷ n) x y =
  mkRECT (x * (W ÷ n) + 2) (y * (H ÷ n) + 2)
         ((x + 1) * (W ÷ n) - 4) ((y + 1) * (H ÷ n) - 4).
Proof.
  intros Hn HW HH RW RH Hx Hy.
  destruct (cellRect_exact W n x Hn HW RW Hx) as [EL ER].
  destruct (cellRect_exact H n y Hn HH RH Hy) as [ET EB].
  unfold cellRect. f_equal; assumption.
Qed.

(** X8: what the overlay highlights is part of what the window gets.  For a
    tile count in [2,9], a work area at least as wide and high and a
    selection inside it, every cell whose painted rectangle passes the
    overlap test has its whole tile inside the resolved geometry. *)
Theorem highlighted_cell_in_geometry
    (mi : MONITORINFO) (n : Z) (sel : RECT) (x y : Z) :
  2 <= n <= 9 ->
  n <= Width (RcWork mi) -> n <= Height (RcWork mi) ->
  RECT_wf (RcWork mi) -> insideWorkArea mi sel ->
  0 <= x < n -> 0 <= y < n ->
  let tileW := Width (RcWork mi) ÷ n in
  let tileH := Height (RcWork mi) ÷ n in
  overlap (cellRect tileW tileH x y) sel = true ->
  exists gx gy gcx gcy : Z,
    resolve mi n sel = Ret (gx, gy, gcx, gcy) /\
    gx <= Left (RcWork mi) + x * tileW /\
    Left (RcWork mi) + (x + 1) * tileW <= gx + gcx /\
    gy <= Top (RcWork mi) + y * tileH /\
    Top (RcWork mi) + (y + 1) * tileH <= gy + gcy.
Proof.
  intros Hn HW HH Hwf Hin Hx Hy. cbv zeta. intros Hov.
  pose proof (Width_in_range (RcWork mi)) as RW.
  pose proof (Height_in_range (RcWork mi)) as RH.
  rewrite (cellRect_in_grid (Width (RcWork mi)) (Height (RcWork mi)) n x y)
    in Hov by assumption.
  apply overlap_true_iff in Hov. destruct Hov as (O1 & O2 & O3 & O4).
  rewrite (resolve_exact mi n sel)
    by (assumption || lia || exact (insideWorkArea_wf _ _ Hin)).
  destruct Hin as [[Hsx Hsr] [Hsy Hsb]].
  pose proof (axis_bounds (Width (RcWork mi)) n (Left sel) (Right sel) Hn HW Hsx Hsr) as AX.
  pose proof (axis_bounds (Height (RcWork mi)) n (Top sel) (Bottom sel) Hn HH Hsy Hsb) as AY.
  cbv zeta in AX, AY.
  destruct (tile_size_bounds (Width (RcWork mi)) n ltac:(lia) HW) as [TW TWn].
  destruct (tile_size_bounds (Height (RcWork mi)) n ltac:(lia) HH) as [TH THn].
  set (W := Width (RcWork mi)) in *. set (H := Height (RcWork mi)) in *.
  set (tw := W ÷ n) in *. set (th := H ÷ n) in *.
  assert (QL : Left sel ÷ tw < x + 1) by (apply Z.quot_lt_upper_bound; nia).
  assert (QT : Top sel ÷ th < y + 1) by (apply Z.quot_lt_upper_bound; nia).
  assert (QR : x <= Right sel ÷ tw) by (apply Z.quot_le_lower_bound; nia).
  assert (QB : y <= Bottom sel ÷ th) by (apply Z.quot_le_lower_bound; nia).
  assert (PL : Left sel ÷ tw * tw <= x * tw)
    by (apply Z.mul_le_mono_nonneg_r; lia).
  assert (PT : Top sel ÷ th * th <= y * th)
    by (apply Z.mul_le_mono_nonneg_r; lia).
  assert (PR : x * tw <= Right sel ÷ tw * tw)
    by (apply Z.mul_le_mono_nonneg_r; lia).
  assert (PB : y * th <= Bottom sel ÷ th * th)
    by (apply Z.mul_le_mono_nonneg_r; lia).
  assert (PW : (x + 1) * tw <= n * tw)
    by (apply Z.mul_le_mono_nonneg_r; lia).
  assert (PH : (y + 1) * th <= n * th)
    by (apply Z.mul_le_mono_nonneg_r; lia).
  assert (X1 : (x + 1) * tw <= Z.min W (Right sel ÷ tw * tw + tw)).
  { apply Z.min_glb; lia. }
  assert (Y1 : (y + 1) * th <= Z.min H (Bottom sel ÷ th * th + th)).
  { apply Z.min_glb; lia. }
  do 4 eexists. split; [reflexivity |].
  repeat split; lia.
Qed.

Lemma highlighted_cell_in_geometry_witness :
  exists gx gy gcx gcy : Z,
    resolve (monitor1921 0) 3 (mkRECT 1000 600 1100 700) = Ret (gx, gy, gcx, gcy) /\
    gx <= 0 + 1 * 640 /\ 0 + (1 + 1) * 640 <= gx + gcx /\
    gy <= 0 + 1 * 360 /\ 0 + (1 + 1) * 360 <= gy + gcy.
Proof.
  assert (Hyp : insideWorkArea (monitor1921 0) (mkRECT 1000 600 1100 700)).
  { unfold insideWorkArea. vm_compute. intuition discriminate. }
  assert (Hwf : RECT_wf (RcWork (monitor1921 0))).
  { unfold RECT_wf, int32_range. vm_compute. intuition discriminate. }
  exact (highlighted_cell_in_geometry (monitor1921 0) 3 (mkRECT 1000 600 1100 700) 1 1
           ltac:(lia) ltac:(vm_compute; discriminate)
           ltac:(vm_compute; discriminate) Hwf Hyp ltac:(lia) ltac:(lia)
           ltac:(vm_compute; reflexivity)).
Defined.

(** X9: with a tile count in [2,9], the geometry computation of the
    pointer-up handler panics (integer division by zero) exactly when the
    work area is narrower or lower than the tile count, so that a tile has
    no pixel; it never blocks. *)
Theorem resolve_panics_iff (mi : MONITORINFO) (n : Z) (sel : RECT) :
  2 <= n <= 9 ->
  (resolve mi n sel = Panic <->
   Z.abs (Width (RcWork mi)) < n \/ Z.abs (Height (RcWork mi)) < n) /\
  resolve mi n sel <> Blocked.
Proof.
  intros Hn.
  pose proof (Width_in_range (RcWork mi)) as RW.
  pose proof (Height_in_range (RcWork mi)) as RH.
  pose proof (Z.quot_small_iff (Width (RcWork mi)) n ltac:(lia)) as SW.
  pose proof (Z.quot_small_iff (Height (RcWork mi)) n ltac:(lia)) as SH.
  rewrite (Z.abs_eq n) in SW, SH by lia.
  unfold resolve.
  rewrite (go_div_exact (Width (RcWork mi)) n), (go_div_exact (Height (RcWork mi)) n)
    by (assumption || lia).
  cbn [bind].
  set (tw := Width (RcWork mi) ÷ n) in *. set (th := Height (RcWork mi) ÷ n) in *.
  unfold go_div, go_mod.
  destruct (Z.eqb_spec tw 0) as [Etw | Ntw].
  { cbn [bind]. split; [| discriminate].
    split; [intros _; left; apply SW; exact Etw | reflexivity]. }
  cbn [bind].
  destruct (Z.eqb_spec th 0) as [Eth | Nth].
  { cbn [bind]. split; [| discriminate].
    split; [intros _; right; apply SH; exact Eth | reflexivity]. }
  cbn [bind].
  assert (NoPanic : ~ (Z.abs (Width (RcWork mi)) < n \/ Z.abs (Height (RcWork mi)) < n)).
  { intros [A | A]; [apply SW in A | apply SH in A]; contradiction. }
  destruct (to_int (Right sel ÷ tw) =? to_int (n - 1));
    destruct (to_int (Bottom sel ÷ th) =? to_int (n - 1));
    cbn [bind]; (split; [split; [discriminate | intros A; elim (NoPanic A)] | discriminate]).
Qed.

Lemma resolve_panics_iff_witness :
  resolve (mkMONITORINFO (mkRECT 0 0 8 600) (mkRECT 0 0 8 600)) 9 (mkRECT 1 1 2 2) = Panic.
Proof.
  apply (proj1 (resolve_panics_iff (mkMONITORINFO (mkRECT 0 0 8 600) (mkRECT 0 0 8 600))
                  9 (mkRECT 1 1 2 2) ltac:(lia))).
  left. vm_compute. reflexivity.
Defined.

(** ** What a run writes and moves *)

(** An invariant that relates the variables to everything done so far is
    kept by the dispatch of any messages when every handler keeps it. *)
Lemma dispatch_trace_invariant (world : World) (window : HWND)
    (J : State -> list Action -> Prop) :
  (forall (s : State) (fg : list HWND) (msg : Msg) (w l : Z) (r : Step)
          (done : list Action),
      J s done -> wndProc world window s fg msg w l = Ret r ->
      J (st r) (done ++ acts r)) ->
  forall (msgs : list (Msg * Z * Z)) (s : State) (fg : list HWND) (r : Step)
         (done : list Action),
    J s done -> dispatch world window s fg msgs = Ret r ->
    J (st r) (done ++ acts r).
Proof.
  intros Hstep. induction msgs as [| [[msg w] l] rest IH]; intros s fg r done Hs Hd;
    cbn [dispatch] in Hd.
  - injection Hd as <-. cbn [st acts]. rewrite app_nil_r. exact Hs.
  - destruct (wndProc world window s fg msg w l) as [r1 | |] eqn:E1;
      cbn [bind] in Hd; try discriminate Hd.
    destruct (dispatch world window (st r1) (polls r1) rest) as [r2 | |] eqn:E2;
      cbn [bind] in Hd; try discriminate Hd.
    injection Hd as <-. cbn [st acts]. rewrite app_assoc.
    apply (IH (st r1) (polls r1) r2 (done ++ acts r1)); [| exact E2].
    exact (Hstep s fg msg w l r1 done Hs E1).
Qed.

Lemma startup_acts (world : World) (window : HWND) (r0 : Step) :
  startup world = Ret (window, r0) ->
  acts r0 = [ShowWindow window SW_MINIMIZE; ShowWindow window SW_RESTORE;
             SetWindowPos window (Left (RcWork (info (st r0)))) (Top (RcWork (info (st r0))))
                          (Width (RcWork (info (st r0)))) (Height (RcWork (info (st r0))))].
Proof.
  unfold startup. intros Hs.
  destruct (newWindow world) as [h |]; [| discriminate Hs].
  destruct (readTiles (ReadFile world)) as [n | |]; cbn [bind] in Hs; try discriminate Hs.
  destruct (awaitForeground h (foreground world)) as [[w0 fg'] |]; [| discriminate Hs].
  destruct (MonitorFromWindow world w0 =? 0); [discriminate Hs |].
  destruct (GetMonitorInfo world (MonitorFromWindow world w0)) as [mi |];
    [| discriminate Hs].
  injection Hs as <- <-. reflexivity.
Qed.

Lemma paintCells_In (w h n : Z) (sel : RECT) (a : Action) :
  In a (paintCells w h n sel) -> exists x y : Z, a = paintCell w h sel x y.
Proof.
  unfold paintCells. intros Hin.
  apply in_flat_map in Hin as (x & _ & Hin).
  apply in_map_iff in Hin as (y & E & _).
  exists x, y. symmetry. exact E.
Qed.

(** What a handler issues besides requests on the overlay and painting: a
    restore and a move of the activated window and a write of the settings,
    all three by the pointer-up handler while a selection is in progress. *)
Lemma wndProc_acts (world : World) (window : HWND) (s : State) (fg : list HWND)
    (msg : Msg) (w l : Z) (r : Step) (a : Action) :
  wndProc world window s fg msg w l = Ret r -> In a (acts r) ->
  match a with
  | WriteFile data =>
    msg = WM_LBUTTONUP /\ selecting s = true /\ data = [to_byte (tiles s)]
  | SetWindowPos W x y cx cy =>
    msg = WM_LBUTTONUP /\ selecting s = true /\
    (exists rest : list HWND, awaitForeground window fg = Some (W, rest)) /\
    W <> 0 /\ W <> GetDesktopWindow world /\ MonitorFromWindow world W <> 0 /\
    resolve (info s) (tiles s) (selection s) = Ret (x, y, cx, cy)
  | _ => True
  end.
Proof.
  destruct msg; cbn [wndProc]; intros E Hin.
  - injection E as <-. unfold onMouseMove in Hin.
    destruct (selecting s); cbn [acts] in Hin; [| destruct Hin].
    destruct (negb _); [destruct Hin as [<- | []]; exact I | destruct Hin].
  - injection E as <-. destruct Hin.
  - unfold onLButtonUp in E.
    destruct (selecting s) eqn:Hsel; [| injection E as <-; destruct Hin].
    destruct (awaitForeground window fg) as [[h fg'] |] eqn:Hfg; [| discriminate E].
    destruct ((h =? 0) || (h =? GetDesktopWindow world)) eqn:D.
    { injection E as <-. destruct Hin as [<- | [<- | []]]; exact I. }
    destruct (Z.eqb_spec (MonitorFromWindow world h) 0) as [| Hm].
    { injection E as <-. destruct Hin as [<- | [<- | []]]; exact I. }
    destruct (resolve (info s) (tiles s) (selection s)) as [[[[gx gy] gcx] gcy] | |];
      cbn [bind] in E; try discriminate E.
    injection E as <-. cbn [acts] in Hin.
    apply orb_false_iff in D as [D0 D1].
    apply Z.eqb_neq in D0. apply Z.eqb_neq in D1.
    destruct Hin as [<- | [<- | [<- | [<- | [<- | []]]]]]; try exact I.
    + repeat split; try assumption; try reflexivity. exists fg'. reflexivity.
    + repeat split; reflexivity.
  - unfold paint in E.
    destruct (go_div (Width (RcWork (info s))) (tiles s)) as [tw | |];
      cbn [bind] in E; try discriminate E.
    destruct (go_div (Height (RcWork (info s))) (tiles s)) as [th | |];
      cbn [bind] in E; try discriminate E.
    injection E as <-. cbn [acts] in Hin.
    destruct Hin as [<- | [<- | Hin]]; try exact I.
    apply in_app_or in Hin as [Hin | [<- | []]]; [| exact I].
    apply paintCells_In in Hin as (x & y & ->). exact I.
  - injection E as <-. unfold onKeyDown in Hin.
    destruct (negb (selecting s) && (50 <=? w) && (w <=? 57)); cbn [acts] in Hin.
    + destruct Hin as [<- | []]. exact I.
    + destruct (w =? VK_ESCAPE); cbn [acts] in Hin; [| destruct Hin].
      destruct Hin as [<- | []]. exact I.
  - injection E as <-. destruct Hin as [<- | []]. exact I.
  - injection E as <-. destruct Hin as [<- | []]. exact I.
Qed.

Lemma to_byte_round_trip (n : Z) : 2 <= n <= 9 -> readTiles (Some [to_byte n]) = Ret n.
Proof.
  intros Hn.
  assert (C : n = 2 \/ n = 3 \/ n = 4 \/ n = 5 \/ n = 6 \/ n = 7 \/ n = 8 \/ n = 9) by lia.
  destruct C as [-> | [-> | [-> | [-> | [-> | [-> | [-> | ->]]]]]]]; reflexivity.
Qed.

(** X10: the settings round trip.  Whatever a run writes to the settings
    file is one byte that the start-up code of the next run reads back as
    the tile count the run ended with; a run writes only after a selection
    has begun. *)
Theorem settings_round_trip
    (world : World) (msgs : list (Msg * Z * Z)) (r : Step) (data : list byte) :
  program world msgs = Ret r ->
  In (WriteFile data) (acts r) ->
  readTiles (Some data) = Ret (tiles (st r)) /\
  data = [to_byte (tiles (st r))] /\
  selecting (st r) = true.
Proof.
  intros Hp Hin.
  destruct (program_inv world msgs r Hp) as (window & r0 & rd & Hs & Hd & Est & _ & Eacts).
  set (J := fun (s : State) (done : list Action) =>
              2 <= tiles s <= 9 /\
              forall d : list byte, In (WriteFile d) done ->
                                    selecting s = true /\ d = [to_byte (tiles s)]).
  assert (HJ : J (st rd) (acts r0 ++ acts rd)).
  { apply (dispatch_trace_invariant world window J) with (msgs := msgs) (s := st r0)
                                                         (fg := polls r0).
    - intros s fg msg w l r1 done [Ht Hw] E. split.
      + exact (wndProc_tiles_range world window s fg msg w l r1 Ht E).
      + intros d Hd'. apply in_app_or in Hd' as [Hd' | Hd'].
        * destruct (Hw d Hd') as [Sel ->].
          destruct (wndProc_selecting world window s fg msg w l r1 Sel E) as [S1 T1].
          rewrite T1. auto.
        * pose proof (wndProc_acts world window s fg msg w l r1 (WriteFile d) E Hd')
            as (_ & Sel & ->).
          destruct (wndProc_selecting world window s fg msg w l r1 Sel E) as [S1 T1].
          rewrite T1. auto.
    - split.
      + destruct (startup_inv world window r0 Hs) as (n & w0 & mi & _ & R & _ & _ & _ & E).
        rewrite E. cbn [tiles]. exact (readTiles_range _ _ R).
      + intros d Hd'. rewrite (startup_acts world window r0 Hs) in Hd'.
        destruct Hd' as [X | [X | [X | []]]]; discriminate X.
    - exact Hd. }
  destruct HJ as [Ht Hw]. rewrite Eacts in Hin. rewrite Est.
  destruct (Hw data Hin) as [Sel ->].
  split; [apply to_byte_round_trip; exact Ht |]. split; [reflexivity | exact Sel].
Qed.

Lemma settings_round_trip_witness :
  readTiles (Some [x03]) = Ret 3.
Proof.
  assert (Hp : program twoMonitors dragMsgs =
               Ret (mkStep dragging []
                      [ShowWindow 1 SW_MINIMIZE; ShowWindow 1 SW_RESTORE;
                       SetWindowPos 1 0 0 1921 1080; InvalidateRect 1;
                       ShowWindow 1 SW_MINIMIZE; ShowWindow 7 SW_RESTORE;
                       SetWindowPos 7 640 360 640 360; WriteFile [x03]; CloseWindow 1])).
  { vm_compute. reflexivity. }
  exact (proj1 (settings_round_trip twoMonitors dragMsgs _ [x03] Hp
                  ltac:(cbn [acts In]; tauto))).
Defined.

Lemma awaitForeground_other (window : HWND) (fg : list HWND) (w : HWND) (rest : list HWND) :
  awaitForeground window fg = Some (w, rest) -> w <> window.
Proof.
  induction fg as [| a fg IH]; cbn [awaitForeground]; [discriminate |].
  destruct (Z.eqb_spec a window) as [| Hne]; [exact IH |].
  intros E. injection E as <- _. exact Hne.
Qed.

(** X11: the only windows a run ever moves.  Every [SetWindowPos] of a run
    is either the placement of the overlay over the work area captured at
    start-up, or the placement of a window that is not the overlay, not the
    null window and not the desktop, and that is on some monitor. *)
Theorem moved_windows
    (world : World) (msgs : list (Msg * Z * Z)) (r : Step)
    (window W : HWND) (x y cx cy : Z) :
  program world msgs = Ret r ->
  newWindow world = Some window ->
  In (SetWindowPos W x y cx cy) (acts r) ->
  (W = window /\
   x = Left (RcWork (info (st r))) /\ y = Top (RcWork (info (st r))) /\
   cx = Width (RcWork (info (st r))) /\ cy = Height (RcWork (info (st r)))) \/
  (W <> window /\ W <> 0 /\ W <> GetDesktopWindow world /\
   MonitorFromWindow world W <> 0).
Proof.
  intros Hp Hw Hin.
  destruct (program_inv world msgs r Hp) as (h & r0 & rd & Hs & Hd & Est & _ & Eacts).
  destruct (startup_inv world h r0 Hs) as (n & w0 & mi0 & Hh & _ & _ & _ & _ & Es).
  assert (h = window) as -> by congruence.
  set (J := fun (s : State) (done : list Action) =>
              info s = mi0 /\
              forall (W' : HWND) (x' y' cx' cy' : Z),
                In (SetWindowPos W' x' y' cx' cy') done ->
                (W' = window /\
                 x' = Left (RcWork mi0) /\ y' = Top (RcWork mi0) /\
                 cx' = Width (RcWork mi0) /\ cy' = Height (RcWork mi0)) \/
                (W' <> window /\ W' <> 0 /\ W' <> GetDesktopWindow world /\
                 MonitorFromWindow world W' <> 0)).
  assert (HJ : J (st rd) (acts r0 ++ acts rd)).
  { apply (dispatch_trace_invariant world window J) with (msgs := msgs) (s := st r0)
                                                         (fg := polls r0).
    - intros s fg msg w l r1 done [Hi Hmv] E. split.
      + rewrite (wndProc_info world window s fg msg w l r1 E). exact Hi.
      + intros W' x' y' cx' cy' Hd'. apply in_app_or in Hd' as [Hd' | Hd'].
        * exact (Hmv W' x' y' cx' cy' Hd').
        * pose proof (wndProc_acts world window s fg msg w l r1 _ E Hd')
            as (_ & _ & [rest Hfg] & H0 & Hdesk & Hmon & _).
          right. split; [exact (awaitForeground_other window fg W' rest Hfg) |]. auto.
    - split; [rewrite Es; reflexivity |].
      intros W' x' y' cx' cy' Hd'. rewrite (startup_acts world window r0 Hs) in Hd'.
      destruct Hd' as [X | [X | [X | []]]]; try discriminate X.
      injection X as <- <- <- <- <-. rewrite Es. cbn [info]. left. auto.
    - exact Hd. }
  destruct HJ as [Hi Hmv]. rewrite Eacts in Hin. rewrite Est, Hi.
  exact (Hmv W x y cx cy Hin).
Qed.

Lemma moved_windows_witness :
  7 <> 1 /\ 7 <> 0 /\ 7 <> GetDesktopWindow twoMonitors /\
  MonitorFromWindow twoMonitors 7 <> 0.
Proof.
  assert (Hp : program twoMonitors dragMsgs =
               Ret (mkStep dragging []
                      [ShowWindow 1 SW_MINIMIZE; ShowWindow 1 SW_RESTORE;
                       SetWindowPos 1 0 0 1921 1080; InvalidateRect 1;
                       ShowWindow 1 SW_MINIMIZE; ShowWindow 7 SW_RESTORE;
                       SetWindowPos 7 640 360 640 360; WriteFile [x03]; CloseWindow 1])).
  { vm_compute. reflexivity. }
  destruct (moved_windows twoMonitors dragMsgs _ 1 7 640 360 640 360 Hp
              ltac:(reflexivity) ltac:(cbn [acts In]; tauto)) as [[E _] | H].
  - discriminate E.
  - exact H.
Defined.

(** * Package win: decoders and message translation *)

Lemma land_65535 (a : Z) : Z.land a 65535 = a mod 2 ^ 16.
Proof. change 65535 with (Z.ones 16). apply Z.land_ones. lia. Qed.

Lemma land_255 (a : Z) : Z.land a 255 = a mod 2 ^ 8.
Proof. change 255 with (Z.ones 8). apply Z.land_ones. lia. Qed.

Lemma to_int16_mod (z : Z) : to_int16 z mod 2 ^ 16 = z mod 2 ^ 16.
Proof.
  unfold to_int16, wrap_signed.
  change (2 ^ (16 - 1)) with 32768. change (2 ^ 16) with 65536.
  rewrite Zminus_mod_idemp_l.
  replace (z + 32768 - 32768) with z by ring. reflexivity.
Qed.

(** The high half of the low 32 bits is the second 16-bit group. *)
Lemma high_word (l : Z) : (l mod 2 ^ 32 / 2 ^ 16) mod 2 ^ 16 = (l / 2 ^ 16) mod 2 ^ 16.
Proof.
  pose proof (Z.div_mod l (2 ^ 32) ltac:(lia)) as E.
  set (r := l mod 2 ^ 32) in *. set (q := l / 2 ^ 32) in *.
  rewrite E at 1.
  replace (2 ^ 32 * q + r) with (r + q * 2 ^ 16 * 2 ^ 16) by (change (2 ^ 32) with (2 ^ 16 * 2 ^ 16); ring).
  rewrite Z.div_add by lia.
  rewrite Z.add_mod by lia. rewrite Z.mod_mul by lia.
  rewrite Z.add_0_r. rewrite Z.mod_mod by lia. reflexivity.
Qed.

(** X12: the position decoders of package win agree with the decoding the
    program does by hand: for every message parameter, [mouseX] and [mouseY]
    give the pointer position that the pointer handlers of the program
    compute with [LOWORD] and [HIWORD], a pair of 16-bit signed values. *)
Theorem mouse_decoders_agree (l : Z) :
  Win.mouseX l = pointerX l /\ Win.mouseY l = pointerY l /\
  int16_range (Win.mouseX l) /\ int16_range (Win.mouseY l).
Proof.
  assert (EX : Win.mouseX l = pointerX l).
  { unfold Win.mouseX, pointerX, LOWORD, to_uint16, to_uint32, wrap_unsigned.
    rewrite land_65535. f_equal.
    rewrite Z.mod_mod_divide; [reflexivity |].
    exists (2 ^ 16). reflexivity. }
  assert (EY : Win.mouseY l = pointerY l).
  { unfold Win.mouseY, pointerY, HIWORD, to_uint16, to_uint32, wrap_unsigned.
    rewrite land_65535, !Z.shiftr_div_pow2 by lia. f_equal.
    symmetry. apply high_word. }
  split; [exact EX |]. split; [exact EY |].
  rewrite EX, EY. split; [apply pointerX_in_range | apply pointerY_in_range].
Qed.

(** A bit test by masking with a power of two. *)
Lemma land_pow2_testbit (o k : Z) :
  0 <= k -> negb (Z.land o (Z.shiftl 1 k) =? 0) = Z.testbit o k.
Proof.
  intros Hk. rewrite Z.shiftl_1_l.
  destruct (Z.testbit o k) eqn:B.
  - destruct (Z.eqb_spec (Z.land o (2 ^ k)) 0) as [E | _]; [| reflexivity].
    assert (T : Z.testbit (Z.land o (2 ^ k)) k = true).
    { rewrite Z.land_spec, B, Z.pow2_bits_true by lia. reflexivity. }
    rewrite E, Z.bits_0 in T. discriminate T.
  - assert (E : Z.land o (2 ^ k) = 0).
    { apply Z.bits_inj'. intros n Hn.
      rewrite Z.land_spec, Z.bits_0, Z.pow2_bits_eqb by lia.
      destruct (Z.eqb_spec k n) as [<- | _]; [rewrite B; reflexivity | apply andb_false_r]. }
    rewrite E. reflexivity.
Qed.

(** X13: the fields of [KeyOptions] do not overlap.  For a repeat count
    below 2^16, a scan code below 2^8 and any higher bits [flags], the key
    options [count + 2^16 * scan + 2^24 * flags] decode to that repeat count
    and scan code, [IsExtended] is bit 0 of [flags] and [WasDown] is bit 6 of
    [flags]. *)
Theorem key_options_fields (count scan flags : Z) :
  0 <= count < 2 ^ 16 -> 0 <= scan < 2 ^ 8 -> 0 <= flags < 2 ^ 39 ->
  let o := count + 2 ^ 16 * scan + 2 ^ 24 * flags in
  Win.RepeatCount o = count /\
  Win.ScanCode o = scan /\
  Win.IsExtended o = Z.testbit flags 0 /\
  Win.WasDown o = Z.testbit flags 6.
Proof.
  intros Hc Hs Hf. cbv zeta.
  set (o := count + 2 ^ 16 * scan + 2 ^ 24 * flags).
  assert (Lo : o mod 2 ^ 16 = count).
  { unfold o.
    replace (count + 2 ^ 16 * scan + 2 ^ 24 * flags)
      with (count + (scan + 2 ^ 8 * flags) * 2 ^ 16)
      by (change (2 ^ 24) with (2 ^ 8 * 2 ^ 16); ring).
    rewrite Z.mod_add by lia. apply Z.mod_small. lia. }
  assert (Hi : o / 2 ^ 16 = scan + 2 ^ 8 * flags).
  { unfold o.
    replace (count + 2 ^ 16 * scan + 2 ^ 24 * flags)
      with (count + (scan + 2 ^ 8 * flags) * 2 ^ 16)
      by (change (2 ^ 24) with (2 ^ 8 * 2 ^ 16); ring).
    rewrite Z.div_add by lia. rewrite Z.div_small by lia. reflexivity. }
  assert (Top : forall k : Z, 0 <= k -> Z.testbit o (24 + k) = Z.testbit flags k).
  { intros k Hk.
    assert (E : o / 2 ^ 24 = flags).
    { unfold o.
      replace (count + 2 ^ 16 * scan + 2 ^ 24 * flags)
        with (count + 2 ^ 16 * scan + flags * 2 ^ 24) by ring.
      rewrite Z.div_add by lia. rewrite Z.div_small by lia. reflexivity. }
    rewrite <- E, <- Z.shiftr_div_pow2, Z.shiftr_spec by lia.
    f_equal. lia. }
  split.
  { unfold Win.RepeatCount. rewrite land_65535, Lo.
    apply to_int_id. unfold int_range. lia. }
  split.
  { unfold Win.ScanCode. rewrite land_255, Z.shiftr_div_pow2, Hi by lia.
    replace (scan + 2 ^ 8 * flags) with (scan + flags * 2 ^ 8) by ring.
    rewrite Z.mod_add by lia. rewrite Z.mod_small by lia.
    apply to_int_id. unfold int_range. lia. }
  split.
  { unfold Win.IsExtended. rewrite land_pow2_testbit by lia.
    exact (Top 0 ltac:(lia)). }
  { unfold Win.WasDown. rewrite land_pow2_testbit by lia.
    exact (Top 6 ltac:(lia)). }
Qed.

Lemma key_options_fields_witness :
  Win.RepeatCount 1075707907 = 3 /\ Win.ScanCode 1075707907 = 30 /\
  Win.IsExtended 1075707907 = false /\ Win.WasDown 1075707907 = true.
Proof.
  exact (key_options_fields 3 30 64 ltac:(lia) ltac:(lia) ltac:(lia)).
Defined.

Section CallbackProperties.

Variable E : Type.
Variable float32 : Type.
Variable wheelForward : Z -> float32.

Let handler : Type := Win.MessageHandler E float32.
Let callback : handler -> HWND -> Win.MessageID -> Z -> Z -> Outcome (Win.Reply E) :=
  Win.Callback E float32 wheelForward.

(** X14: a key-up message runs the key-down handler.  The function stored
    in [OnKeyUp] is never run: replacing it by any other function changes the
    outcome of no message.  With [OnKeyUp] set, a key-up message is answered
    exactly as the key-down message with the same parameters when
    [OnKeyDown] is set, and is a nil-function panic when it is not; that is
    the only way [Callback] panics, and it never blocks. *)
Theorem key_up_runs_key_down_handler
    (m : handler) (window : HWND) (msg : Win.MessageID) (w l : Z) :
  (forall f g : Z -> Z -> list E,
      callback (Win.withOnKeyUp E float32 m (Some f)) window msg w l =
      callback (Win.withOnKeyUp E float32 m (Some g)) window msg w l) /\
  (forall f : Z -> Z -> list E,
      callback (Win.withOnKeyUp E float32 m (Some f)) window Win.WM_KEYUP w l =
      match Win.OnKeyDown E float32 m with
      | Some _ => callback m window Win.WM_KEYDOWN w l
      | None => Panic
      end) /\
  (callback m window msg w l = Panic <->
   msg = Win.WM_KEYUP /\ Win.OnKeyUp E float32 m <> None /\
   Win.OnKeyDown E float32 m = None) /\
  callback m window msg w l <> Blocked.
Proof.
  unfold callback. split; [| split; [| split]].
  - intros f g. destruct msg; reflexivity.
  - intros f. cbn. destruct (Win.OnKeyDown E float32 m); reflexivity.
  - split.
    + intros P. destruct msg; cbn in P;
        repeat match type of P with
               | context [match ?h with Some _ => _ | None => _ end] =>
                 destruct h eqn:?; try discriminate P
               end; try discriminate P.
      split; [reflexivity |]. split; [discriminate | reflexivity].
    + intros (-> & Hup & Hdown). cbn. rewrite Hdown.
      destruct (Win.OnKeyUp E float32 m); [reflexivity | elim Hup; reflexivity].
  - destruct msg; cbn;
      repeat match goal with
             | |- context [match ?h with Some _ => _ | None => _ end] => destruct h
             end; discriminate.
Qed.

(** X15: the deactivation handler depends on the activation handler.  With
    [OnActivate] not set, an activation message goes to [DefWindowProc] and
    [OnDeactivate] is never run, whatever it is: replacing it changes the
    outcome of no message.  With [OnActivate] set, an activation message with
    a non-zero parameter runs [OnActivate] only, and one with a zero
    parameter runs [OnDeactivate] only (nothing when it is not set). *)
Theorem deactivate_needs_activate
    (m : handler) (window : HWND) (msg : Win.MessageID) (w l : Z) :
  match Win.OnActivate E float32 m with
  | None =>
    callback m window Win.WM_ACTIVATE w l = Ret (Win.Default E window Win.WM_ACTIVATE w l) /\
    (forall d : option (list E),
        callback (Win.withOnDeactivate E float32 m d) window msg w l =
        callback m window msg w l)
  | Some activate =>
    callback m window Win.WM_ACTIVATE w l =
    Ret (Win.Handled E
           (if w =? 0
            then match Win.OnDeactivate E float32 m with
                 | Some deactivate => deactivate
                 | None => []
                 end
            else activate))
  end.
Proof.
  unfold callback. destruct (Win.OnActivate E float32 m) as [activate |] eqn:A.
  - cbn. rewrite A. destruct (w =? 0); cbn [negb app].
    + reflexivity.
    + rewrite app_nil_r. reflexivity.
  - split.
    + cbn. rewrite A. reflexivity.
    + intros d. destruct msg; try reflexivity.
      cbn. rewrite A. reflexivity.
Qed.

(** X16: pointer-move positions are decoded without a sign.  A pointer-move
    message hands its handler the two 16-bit halves of the parameter as
    values in [0, 65535], that is [mouseX] and [mouseY] modulo 65536, while
    the button messages hand theirs the signed [mouseX] and [mouseY]: for a
    pointer to the left of or above the client area the two disagree by
    65536. *)
Theorem mouse_move_position_unsigned
    (m : handler) (window : HWND) (w l : Z)
    (move down : Z -> Z -> Z -> list E) :
  Win.OnMouseMove E float32 m = Some move ->
  Win.OnLeftMouseDown E float32 m = Some down ->
  callback m window Win.WM_MOUSEMOVE w l =
    Ret (Win.Handled E (move (Win.mouseX l mod 65536) (Win.mouseY l mod 65536) w)) /\
  callback m window Win.WM_LBUTTONDOWN w l =
    Ret (Win.Handled E (down (Win.mouseX l) (Win.mouseY l) w)) /\
  0 <= Win.mouseX l mod 65536 < 65536 /\ 0 <= Win.mouseY l mod 65536 < 65536 /\
  (Win.mouseX l < 0 -> Win.mouseX l mod 65536 = Win.mouseX l + 65536) /\
  (Win.mouseY l < 0 -> Win.mouseY l mod 65536 = Win.mouseY l + 65536).
Proof.
  intros Hmove Hdown. unfold callback.
  pose proof (to_int16_in_range (Z.land l 65535)) as RX.
  pose proof (to_int16_in_range (Z.land (Z.shiftr l 16) 65535)) as RY.
  fold (Win.mouseX l) in RX. fold (Win.mouseY l) in RY. unfold int16_range in RX, RY.
  split.
  { cbn [Win.Callback]. rewrite Hmove. do 3 f_equal.
    - unfold Win.mouseX. change 65536 with (2 ^ 16).
      rewrite to_int16_mod, !land_65535.
      unfold to_uintptr, wrap_unsigned.
      rewrite Z.mod_mod_divide by (exists (2 ^ 48); reflexivity).
      rewrite Z.mod_mod by lia.
      apply to_int_id. unfold int_range.
      pose proof (Z.mod_pos_bound l (2 ^ 16) ltac:(lia)). lia.
    - unfold Win.mouseY. change 65536 with (2 ^ 16).
      rewrite to_int16_mod, !land_65535, !Z.shiftr_div_pow2 by lia.
      unfold to_uintptr, wrap_unsigned.
      rewrite Z.mod_mod by lia.
      assert (Hh : (l mod 2 ^ 64 / 2 ^ 16) mod 2 ^ 16 = (l / 2 ^ 16) mod 2 ^ 16).
      { pose proof (Z.div_mod l (2 ^ 64) ltac:(lia)) as D.
        set (r := l mod 2 ^ 64) in *. set (q := l / 2 ^ 64) in *.
        rewrite D at 1.
        replace (2 ^ 64 * q + r) with (r + q * 2 ^ 48 * 2 ^ 16)
          by (change (2 ^ 64) with (2 ^ 48 * 2 ^ 16); ring).
        rewrite Z.div_add by lia.
        replace (r / 2 ^ 16 + q * 2 ^ 48) with (r / 2 ^ 16 + q * 2 ^ 32 * 2 ^ 16)
          by (change (2 ^ 48) with (2 ^ 32 * 2 ^ 16); ring).
        rewrite Z.mod_add by lia. reflexivity. }
      rewrite Hh. apply to_int_id. unfold int_range.
      pose proof (Z.mod_pos_bound (l / 2 ^ 16) (2 ^ 16) ltac:(lia)). lia. }
  split.
  { cbn [Win.Callback]. rewrite Hdown. reflexivity. }
  split; [apply Z.mod_pos_bound; lia |].
  split; [apply Z.mod_pos_bound; lia |].
  split; intros Neg.
  - symmetry. apply (Z.mod_unique _ _ (-1)); lia.
  - symmetry. apply (Z.mod_unique _ _ (-1)); lia.
Qed.

End CallbackProperties.

Lemma mouse_move_position_unsigned_witness :
  Win.Callback (nat * list Z) Z (fun v => v) (Win.recorder false false true true false)
               1 Win.WM_MOUSEMOVE 0 (MAKELPARAM 65531 20) =
  Ret (Win.Handled (nat * list Z) [(3%nat, [65531; 20; 0])]) /\
  Win.Callback (nat * list Z) Z (fun v => v) (Win.recorder false false true true false)
               1 Win.WM_LBUTTONDOWN 0 (MAKELPARAM 65531 20) =
  Ret (Win.Handled (nat * list Z) [(5%nat, [-5; 20; 0])]).
Proof.
  destruct (mouse_move_position_unsigned (nat * list Z) Z (fun v => v)
              (Win.recorder false false true true false) 1 0 (MAKELPARAM 65531 20)
              (fun x y o => [(3%nat, [x; y; o])]) (fun x y o => [(5%nat, [x; y; o])])
              ltac:(reflexivity) ltac:(reflexivity)) as (Mv & Dn & _).
  split; [exact Mv | exact Dn].
Defined.

(** ** Fullscreen switching *)

Lemma to_int32_mod (z : Z) : to_int32 z mod 2 ^ 32 = z mod 2 ^ 32.
Proof.
  unfold to_int32, wrap_signed.
  change (2 ^ (32 - 1)) with 2147483648. change (2 ^ 32) with 4294967296.
  rewrite Zminus_mod_idemp_l.
  replace (z + 2147483648 - 2147483648) with z by ring. reflexivity.
Qed.

(** Two integers have the same low 32 bits exactly when they are congruent
    modulo 2^32. *)
Lemma mod32_bits (a b : Z) :
  a mod 2 ^ 32 = b mod 2 ^ 32 <->
  (forall n : Z, 0 <= n < 32 -> Z.testbit a n = Z.testbit b n).
Proof.
  split.
  - intros E n Hn.
    rewrite <- (Z.mod_pow2_bits_low a 32 n), <- (Z.mod_pow2_bits_low b 32 n) by lia.
    rewrite E. reflexivity.
  - intros Hb. apply Z.bits_inj'. intros n Hn.
    destruct (Z_lt_le_dec n 32).
    + rewrite !Z.mod_pow2_bits_low by lia. apply Hb. lia.
    + rewrite !Z.mod_pow2_bits_high by lia. reflexivity.
Qed.

(** What [GetWindowLong] returns after [SetWindowLong] has the stored low 32
    bits. *)
Lemma stored_style_bits (x n : Z) :
  0 <= n < 32 -> Z.testbit (to_int32 (to_uint32 x)) n = Z.testbit x n.
Proof.
  revert n. apply mod32_bits.
  rewrite to_int32_mod. unfold to_uint32, wrap_unsigned.
  apply Z.mod_mod. lia.
Qed.

Lemma mask_bits_low (mask n : Z) :
  0 <= mask < 2 ^ 31 -> 32 <= n -> Z.testbit mask n = false.
Proof.
  intros Hm Hn.
  rewrite <- (Z.mod_small mask (2 ^ 32)) by lia.
  apply Z.mod_pow2_bits_high. lia.
Qed.

Section FullscreenProperties.

Variable WINDOWPLACEMENT : Type.
Variable zeroPlacement : WINDOWPLACEMENT.
Variable WS_OVERLAPPEDWINDOW : Z.
Hypothesis WS_OVERLAPPEDWINDOW_bits : 0 < WS_OVERLAPPEDWINDOW < 2 ^ 31.

(** The test of [IsFullscreen] on a style that was stored and read back. *)
Lemma stored_style_masked (x : Z) :
  Z.land (to_int32 (to_uint32 x)) WS_OVERLAPPEDWINDOW = Z.land x WS_OVERLAPPEDWINDOW.
Proof.
  apply Z.bits_inj'. intros n Hn. rewrite !Z.land_spec.
  destruct (Z_lt_le_dec n 32).
  - rewrite stored_style_bits by lia. reflexivity.
  - rewrite (mask_bits_low WS_OVERLAPPEDWINDOW n) by lia.
    rewrite !andb_false_r. reflexivity.
Qed.

(** X17: switching to fullscreen and back.  When the placement and the
    monitor of the window can be queried, [EnableFullscreen] returns the
    placement, stores a style that [IsFullscreen] then recognises, moves
    the window over the whole monitor and hides the cursor; a
    [DisableFullscreen] with the returned placement then stores the original
    style with the bits of [WS_OVERLAPPEDWINDOW] set (every other bit as
    before), which [IsFullscreen] no longer recognises, and hands the
    placement back to the window system. *)
Theorem fullscreen_round_trip
    (os : Win.Window WINDOWPLACEMENT) (window : HWND)
    (windowed : WINDOWPLACEMENT) (mi : MONITORINFO) :
  Win.GetWindowPlacement _ os = Some windowed ->
  Win.GetMonitorInfo _ os = Some mi ->
  let O := WS_OVERLAPPEDWINDOW in
  let style := Win.GetWindowLong _ os in
  exists v v' : Z,
    Win.EnableFullscreen _ zeroPlacement O os window =
    (windowed,
     [Win.SetWindowLong _ window v;
      Win.SetWindowPos _ window (Left (RcMonitor mi)) (Top (RcMonitor mi))
        (Width (RcMonitor mi)) (Height (RcMonitor mi))
        [Win.SWP_NOOWNERZORDER; Win.SWP_FRAMECHANGED];
      Win.ShowCursor _ false]) /\
    Win.IsFullscreen _ O (Win.restyled _ os v) = true /\
    Win.DisableFullscreen _ O (Win.restyled _ os v) window windowed =
    [Win.SetWindowLong _ window v';
     Win.SetWindowPlacement _ window windowed;
     Win.SetWindowPos _ window 0 0 0 0
       [Win.SWP_NOMOVE; Win.SWP_NOSIZE; Win.SWP_NOZORDER;
        Win.SWP_NOOWNERZORDER; Win.SWP_FRAMECHANGED];
     Win.ShowCursor _ true] /\
    v' = to_uint32 (Z.lor style O) /\
    Win.IsFullscreen _ O (Win.restyled _ os v') = false.
Proof.
  intros Hp Hm. cbv zeta.
  set (style := Win.GetWindowLong _ os).
  exists (to_uint32 (Z.land style (Z.lnot WS_OVERLAPPEDWINDOW))),
         (to_uint32 (Z.lor style WS_OVERLAPPEDWINDOW)).
  split.
  { unfold Win.EnableFullscreen. rewrite Hp, Hm. reflexivity. }
  split.
  { unfold Win.IsFullscreen, Win.restyled. cbn [Win.GetWindowLong].
    rewrite stored_style_masked, <- Z.land_assoc.
    rewrite (Z.land_comm (Z.lnot WS_OVERLAPPEDWINDOW)), Z.land_lnot_diag, Z.land_0_r.
    reflexivity. }
  split.
  { unfold Win.DisableFullscreen, Win.restyled. cbn [Win.GetWindowLong].
    do 2 f_equal.
    change (Z.lor (to_int32 (to_uint32 (Z.land style (Z.lnot WS_OVERLAPPEDWINDOW))))
                  WS_OVERLAPPEDWINDOW mod 2 ^ 32
            = Z.lor style WS_OVERLAPPEDWINDOW mod 2 ^ 32).
    apply mod32_bits. intros n Hn.
    rewrite !Z.lor_spec.
    rewrite stored_style_bits by lia.
    rewrite Z.land_spec, Z.lnot_spec by lia.
    destruct (Z.testbit style n), (Z.testbit WS_OVERLAPPEDWINDOW n); reflexivity. }
  split; [reflexivity |].
  unfold Win.IsFullscreen, Win.restyled. cbn [Win.GetWindowLong].
  rewrite stored_style_masked.
  apply Z.eqb_neq. intros Z0.
  assert (A : Z.land (Z.lor style WS_OVERLAPPEDWINDOW) WS_OVERLAPPEDWINDOW
              = WS_OVERLAPPEDWINDOW).
  { apply Z.bits_inj'. intros n Hn. rewrite Z.land_spec, Z.lor_spec.
    destruct (Z.testbit style n), (Z.testbit WS_OVERLAPPEDWINDOW n); reflexivity. }
  lia.
Qed.

End FullscreenProperties.

Lemma fullscreen_round_trip_witness :
  exists v v' : Z,
    Win.IsFullscreen nat 13565952 (Win.restyled nat (Win.mkWindow nat 349110272 (Some 5%nat) (Some (monitor1921 0))) v) = true /\
    v' = to_uint32 (Z.lor 349110272 13565952) /\
    Win.IsFullscreen nat 13565952 (Win.restyled nat (Win.mkWindow nat 349110272 (Some 5%nat) (Some (monitor1921 0))) v') = false.
Proof.
  destruct (fullscreen_round_trip nat 0%nat 13565952 ltac:(lia)
              (Win.mkWindow nat 349110272 (Some 5%nat) (Some (monitor1921 0))) 1 5%nat
              (monitor1921 0) ltac:(reflexivity) ltac:(reflexivity))
    as (v & v' & _ & F & _ & E & W).
  exists v, v'. auto.
Defined.

(** * Safety of a run *)

Lemma go_div_returns (a b : Z) : b <> 0 -> exists q : Z, go_div a b = Ret q.
Proof.
  intros Hb. unfold go_div.
  destruct (Z.eqb_spec b 0) as [E | _]; [contradiction |].
  eexists. reflexivity.
Qed.

(** Painting needs only a tile count that is not zero. *)
Lemma paint_returns (window : HWND) (mi : MONITORINFO) (n : Z) (sel : RECT) :
  n <> 0 ->
  exists tw th : Z,
    paint window mi n sel =
    Ret ([BeginPaint window;
          FillRect (mkRECT 0 0 (Width (RcWork mi)) (Height (RcWork mi))) backColor]
           ++ paintCells tw th n sel ++ [EndPaint window]).
Proof.
  intros Hn. unfold paint.
  destruct (go_div_returns (Width (RcWork mi)) n Hn) as [tw ->].
  destruct (go_div_returns (Height (RcWork mi)) n Hn) as [th ->].
  exists tw, th. reflexivity.
Qed.

Lemma program_tiles_range (world : World) (msgs : list (Msg * Z * Z)) (r : Step) :
  program world msgs = Ret r -> 2 <= tiles (st r) <= 9.
Proof.
  intros Hp.
  apply (program_invariant (fun s => 2 <= tiles s <= 9) world) with (msgs := msgs).
  - intros window0 s0 fg0 msg0 w0 l0 r0. apply wndProc_tiles_range.
  - intros window0 r0 H0.
    destruct (startup_inv world window0 r0 H0) as (n & w0 & mi & _ & R & _ & _ & _ & E).
    rewrite E. cbn [tiles]. exact (readTiles_range _ _ R).
  - exact Hp.
Qed.

(** X18: painting is safe and complete in every reachable state.  After
    every run of the program a paint message returns, leaves the variables
    and the foreground polls as they are, and issues [BeginPaint], one
    background fill of the rectangle (0, 0, width, height) of the work area,
    exactly [tiles * tiles] cell fills, each in the plain or in the highlight
    colour, and [EndPaint], in this order. *)
Theorem paint_in_reachable_state
    (world : World) (msgs : list (Msg * Z * Z)) (r : Step)
    (window : HWND) (fg : list HWND) (w l : Z) :
  program world msgs = Ret r ->
  exists cells : list Action,
    wndProc world window (st r) fg WM_PAINT w l =
    Ret (mkStep (st r) fg
           ([BeginPaint window;
             FillRect (mkRECT 0 0 (Width (RcWork (info (st r))))
                              (Height (RcWork (info (st r))))) backColor]
              ++ cells ++ [EndPaint window])) /\
    Z.of_nat (length cells) = tiles (st r) * tiles (st r) /\
    (forall a : Action,
        In a cells ->
        exists (rect : RECT) (color : Color),
          a = FillRect rect color /\ (color = foreColor \/ color = inColor)).
Proof.
  intros Hp. pose proof (program_tiles_range world msgs r Hp) as Ht.
  destruct (paint_returns window (info (st r)) (tiles (st r)) (selection (st r))
              ltac:(lia)) as (tw & th & E).
  exists (paintCells tw th (tiles (st r)) (selection (st r))).
  split; [cbn [wndProc]; rewrite E; reflexivity |].
  split.
  - rewrite length_paintCells, Nat2Z.inj_mul, Z2Nat.id by lia. reflexivity.
  - intros a Hin. apply paintCells_In in Hin as (x & y & ->).
    unfold paintCell. eexists. eexists. split; [reflexivity |].
    destruct (overlap _ _); auto.
Qed.

Lemma paint_in_reachable_state_witness :
  exists cells : list Action,
    wndProc twoMonitors 1 dragging [] WM_PAINT 0 0 =
    Ret (mkStep dragging []
           ([BeginPaint 1; FillRect (mkRECT 0 0 1921 1080) backColor]
              ++ cells ++ [EndPaint 1])) /\
    Z.of_nat (length cells) = 9.
Proof.
  assert (Hp : program twoMonitors (firstn 2 dragMsgs) =
               Ret (mkStep dragging [1; 1; 7]
                      [ShowWindow 1 SW_MINIMIZE; ShowWindow 1 SW_RESTORE;
                       SetWindowPos 1 0 0 1921 1080; InvalidateRect 1])).
  { vm_compute. reflexivity. }
  destruct (paint_in_reachable_state twoMonitors (firstn 2 dragMsgs) _ 1 [] 0 0 Hp)
    as (cells & E & L & _).
  exists cells. split; [exact E | exact L].
Defined.

(** The variables of a run whose captured work area is well formed and at
    least 9 by 9 pixels. *)
Lemma wndProc_safe (world : World) (window : HWND) (s : State) (fg : list HWND)
    (msg : Msg) (w l : Z) :
  2 <= tiles s <= 9 ->
  (int16_range (Left (selection s)) /\ int16_range (Top (selection s)) /\
   int16_range (Right (selection s)) /\ int16_range (Bottom (selection s))) ->
  RECT_wf (RcWork (info s)) ->
  9 <= Width (RcWork (info s)) -> 9 <= Height (RcWork (info s)) ->
  wndProc world window s fg msg w l <> Panic.
Proof.
  intros Ht Hsel Hwf HW HH.
  destruct msg; cbn [wndProc]; try discriminate.
  - unfold onLButtonUp. destruct (selecting s); [| discriminate].
    destruct (awaitForeground window fg) as [[h fg'] |]; [| discriminate].
    destruct ((h =? 0) || (h =? GetDesktopWindow world)); [discriminate |].
    destruct (MonitorFromWindow world h =? 0); [discriminate |].
    rewrite (resolve_exact (info s) (tiles s) (selection s)); try assumption; try lia.
    + cbn [bind]. discriminate.
    + unfold RECT_wf, int32_range, int16_range in *. lia.
  - destruct (paint_returns window (info s) (tiles s) (selection s) ltac:(lia))
      as (tw & th & ->).
    cbn [bind]. discriminate.
Qed.

(** X19: a run does not panic after a sound start.  When start-up succeeds
    and the captured work area is a well-formed rectangle at least 9 pixels
    wide and high, no sequence of messages, with whatever parameters and
    whatever the windowing system answers, makes the program panic: every
    division of the geometry and of the painting has a divisor that is not
    zero. *)
Theorem no_panic_after_startup
    (world : World) (window : HWND) (r0 : Step) (msgs : list (Msg * Z * Z)) :
  startup world = Ret (window, r0) ->
  RECT_wf (RcWork (info (st r0))) ->
  9 <= Width (RcWork (info (st r0))) -> 9 <= Height (RcWork (info (st r0))) ->
  program world msgs <> Panic.
Proof.
  intros Hs Hwf HW HH.
  set (Safe := fun s : State =>
                 2 <= tiles s <= 9 /\
                 (int16_range (Left (selection s)) /\ int16_range (Top (selection s)) /\
                  int16_range (Right (selection s)) /\ int16_range (Bottom (selection s))) /\
                 info s = info (st r0)).
  assert (Hd : forall (ms : list (Msg * Z * Z)) (s : State) (fg : list HWND),
             Safe s -> dispatch world window s fg ms <> Panic).
  { induction ms as [| [[msg w] l] rest IH]; intros s fg (Ht & Hsel & Hi);
      cbn [dispatch]; [discriminate |].
    pose proof (wndProc_safe world window s fg msg w l Ht Hsel) as NP.
    rewrite Hi in NP. specialize (NP Hwf HW HH).
    destruct (wndProc world window s fg msg w l) as [r1 | |] eqn:E1; cbn [bind];
      [| contradiction | discriminate].
    assert (S1 : Safe (st r1)).
    { split; [exact (wndProc_tiles_range world window s fg msg w l r1 Ht E1) |].
      split; [exact (wndProc_selection_int16 world window s fg msg w l r1 Hsel E1) |].
      rewrite (wndProc_info world window s fg msg w l r1 E1). exact Hi. }
    specialize (IH (st r1) (polls r1) S1).
    destruct (dispatch world window (st r1) (polls r1) rest) as [r2 | |]; cbn [bind];
      [discriminate | contradiction | discriminate]. }
  unfold program. rewrite Hs. cbn [bind].
  assert (S0 : Safe (st r0)).
  { destruct (startup_inv world window r0 Hs) as (n & w0 & mi & _ & R & _ & _ & _ & E).
    split; [rewrite E; cbn [tiles]; exact (readTiles_range _ _ R) |].
    split; [| reflexivity].
    rewrite E. cbn. unfold int16_range. lia. }
  specialize (Hd msgs (st r0) (polls r0) S0).
  destruct (dispatch world window (st r0) (polls r0) msgs) as [rd | |]; cbn [bind];
    [discriminate | contradiction | discriminate].
Qed.

Lemma no_panic_after_startup_witness :
  program twoMonitors dragMsgs <> Panic.
Proof.
  apply (no_panic_after_startup twoMonitors 1
           (mkStep (mkState (monitor1921 0) false zeroRECT 3) [1; 1; 7]
              [ShowWindow 1 SW_MINIMIZE; ShowWindow 1 SW_RESTORE;
               SetWindowPos 1 0 0 1921 1080])).
  - vm_compute. reflexivity.
  - unfold RECT_wf, int32_range. vm_compute. intuition discriminate.
  - vm_compute. discriminate.
  - vm_compute. discriminate.
Defined.

(** ** Window creation *)



(** ** The message loops *)

Lemma RunMainLoop_prefix (pre : list (Z * Win.MSG)) :
  Forall (fun a => fst a <> 0) pre ->
  forall rest : list (Z * Win.MSG),
    Win.RunMainLoop (pre ++ rest) =
    (flat_map (fun a => [Win.TranslateMessage (snd a); Win.DispatchMessage (snd a)]) pre
       ++ fst (Win.RunMainLoop rest),
     snd (Win.RunMainLoop rest)).
Proof.
  induction 1 as [| [ret msg] pre Hret _ IH]; intros rest.
  - cbn [app flat_map]. destruct (Win.RunMainLoop rest). reflexivity.
  - cbn [app flat_map Win.RunMainLoop fst snd] in *.
    destruct (Z.eqb_spec ret 0) as [E | _]; [contradiction |].
    rewrite IH. reflexivity.
Qed.

(** X21: [RunMainLoop] translates and dispatches, in order, every message
    that [GetMessage] retrieved with a return value other than 0 (a return
    value of -1, an error, included) and returns at the first return value 0
    without dispatching the message retrieved with it (the quit message) or
    anything after it; while no return value is 0 it does not return. *)
Theorem run_main_loop
    (pre post : list (Z * Win.MSG)) (quit : Win.MSG) :
  Forall (fun a => fst a <> 0) pre ->
  let dispatched :=
    flat_map (fun a => [Win.TranslateMessage (snd a); Win.DispatchMessage (snd a)]) pre in
  Win.RunMainLoop (pre ++ (0, quit) :: post) = (dispatched, true) /\
  Win.RunMainLoop pre = (dispatched, false).
Proof.
  intros Hpre. cbv zeta. split.
  - rewrite (RunMainLoop_prefix pre Hpre). cbn. rewrite app_nil_r. reflexivity.
  - rewrite <- (app_nil_r pre) at 1.
    rewrite (RunMainLoop_prefix pre Hpre). cbn. rewrite app_nil_r. reflexivity.
Qed.

Lemma run_main_loop_witness :
  Win.RunMainLoop [(1, Win.mkMSG 1 Win.WM_KEYDOWN 50 0);
                   (-1, Win.mkMSG 1 Win.WM_CHAR 50 0);
                   (0, Win.mkMSG 0 Win.WM_QUIT 0 0);
                   (1, Win.mkMSG 1 Win.WM_KEYUP 50 0)] =
  ([Win.TranslateMessage (Win.mkMSG 1 Win.WM_KEYDOWN 50 0);
    Win.DispatchMessage (Win.mkMSG 1 Win.WM_KEYDOWN 50 0);
    Win.TranslateMessage (Win.mkMSG 1 Win.WM_CHAR 50 0);
    Win.DispatchMessage (Win.mkMSG 1 Win.WM_CHAR 50 0)], true).
Proof.
  apply (proj1 (run_main_loop [(1, Win.mkMSG 1 Win.WM_KEYDOWN 50 0);
                               (-1, Win.mkMSG 1 Win.WM_CHAR 50 0)]
                              [(1, Win.mkMSG 1 Win.WM_KEYUP 50 0)]
                              (Win.mkMSG 0 Win.WM_QUIT 0 0)
                              ltac:(repeat constructor; cbn; lia))).
Defined.

Lemma gameLoop_quit (queue : list (option Win.MSG)) (msg : Win.MSG) :
  Win.isQuit msg = true -> Win.gameLoop queue msg = ([], true).
Proof. intros Hq. destruct queue as [| [next |] rest]; cbn; rewrite Hq; reflexivity. Qed.

Lemma gameLoop_until_quit (pre : list (option Win.MSG)) :
  Forall (fun o => forall m, o = Some m -> Win.isQuit m = false) pre ->
  forall (msg quit : Win.MSG) (post : list (option Win.MSG)),
    Win.isQuit msg = false -> Win.isQuit quit = true ->
    Win.gameLoop (pre ++ Some quit :: post) msg =
    (flat_map Win.served pre ++ Win.served (Some quit), true) /\
    Win.gameLoop pre msg = (flat_map Win.served pre, false).
Proof.
  induction 1 as [| o pre Ho _ IH]; intros msg quit post Hm Hq.
  - cbn [app flat_map Win.gameLoop]. rewrite Hm, (gameLoop_quit post quit Hq).
    split; reflexivity.
  - destruct o as [next |].
    + pose proof (Ho next eq_refl) as Hn.
      destruct (IH next quit post Hn Hq) as [E1 E2].
      cbn [app flat_map Win.gameLoop Win.served]. rewrite Hm, E1, E2.
      split; reflexivity.
    + destruct (IH msg quit post Hm Hq) as [E1 E2].
      cbn [app flat_map Win.gameLoop Win.served]. rewrite Hm, E1, E2.
      split; reflexivity.
Qed.

(** X22: [RunMainGameLoop] serves every observation of the message queue
    up to the first quit message: a waiting message is translated and
    dispatched, an empty queue runs the given function once; the quit message
    itself is translated and dispatched before the loop returns, unlike in
    [RunMainLoop].  The first look at the queue only peeks: when the queue is
    empty then, that observation runs nothing, and when the quit message is
    already waiting then, the loop returns at once and dispatches nothing.
    While no quit message is seen the loop does not return. *)
Theorem run_main_game_loop
    (pre post : list (option Win.MSG)) (quit : Win.MSG) :
  Win.isQuit quit = true ->
  Forall (fun o => forall m, o = Some m -> Win.isQuit m = false) pre ->
  let served := match pre with
                | None :: later => later
                | _ => pre
                end in
  Win.RunMainGameLoop (Some quit :: post) = ([], true) /\
  (pre <> [] ->
   Win.RunMainGameLoop (pre ++ Some quit :: post) =
   (flat_map Win.served served ++ [Win.TranslateMessage quit; Win.DispatchMessage quit],
    true)) /\
  Win.RunMainGameLoop pre = (flat_map Win.served served, false).
Proof.
  intros Hq Hpre. cbv zeta.
  split; [exact (gameLoop_quit (Some quit :: post) quit Hq) |].
  destruct pre as [| [first |] later].
  - split; [intros N; elim N; reflexivity | reflexivity].
  - pose proof (Forall_inv Hpre first eq_refl) as Hf.
    destruct (gameLoop_until_quit (Some first :: later) Hpre first quit post Hf Hq)
      as [E1 E2].
    split; [intros _; exact E1 | exact E2].
  - pose proof (Forall_inv_tail Hpre) as Hl.
    destruct (gameLoop_until_quit later Hl Win.zeroMSG quit post eq_refl Hq) as [E1 E2].
    split; [intros _; exact E1 | exact E2].
Qed.

Lemma run_main_game_loop_witness :
  Win.RunMainGameLoop [None; None; Some (Win.mkMSG 1 Win.WM_KEYDOWN 50 0);
                       Some (Win.mkMSG 0 Win.WM_QUIT 0 0); None] =
  ([Win.Idle;
    Win.TranslateMessage (Win.mkMSG 1 Win.WM_KEYDOWN 50 0);
    Win.DispatchMessage (Win.mkMSG 1 Win.WM_KEYDOWN 50 0);
    Win.TranslateMessage (Win.mkMSG 0 Win.WM_QUIT 0 0);
    Win.DispatchMessage (Win.mkMSG 0 Win.WM_QUIT 0 0)], true).
Proof.
  assert (Hpre : Forall (fun o => forall m, o = Some m -> Win.isQuit m = false)
                        [None; None; Some (Win.mkMSG 1 Win.WM_KEYDOWN 50 0)]).
  { repeat constructor; intros m E; try discriminate E.
    injection E as <-. reflexivity. }
  destruct (run_main_game_loop [None; None; Some (Win.mkMSG 1 Win.WM_KEYDOWN 50 0)]
              [None] (Win.mkMSG 0 Win.WM_QUIT 0 0) ltac:(reflexivity) Hpre)
    as (_ & E & _).
  apply E. discriminate.
Defined.
